(** * AIAgentHub: the in-memory record store and the HTTP proxy handlers

    A shallow embedding of
      - [src/server/storage.ts]: the class [MemStorage];
      - [src/server/routes.ts]: the route handlers of [registerRoutes]
        (lines 7-384) and the earlier login that the file ends with;
      - the draft of the same routes that carries the demo login branch
        and the local fallback of the agent list ([Draft] below);
    together with the properties of the specification that concern them.

    JavaScript values are dynamically typed; objects are finite maps from
    property names to values, a [Map<number, V>] is an insertion-ordered
    association list, and the handlers run in a small state-and-exception
    monad over the store, the wall clock and the log of outbound calls. *)

From Stdlib Require Import ZArith Lia.
From stdpp Require Import base option list strings gmap pretty sorting.

Set Warnings "-register-all".
Open Scope Z_scope.

(* ===================================================================== *)
(** ** JavaScript values *)
(* ===================================================================== *)

Module JS.

(** Numbers are restricted to the integers (ids, clock readings, status
    codes); a [Date] is its epoch-millisecond value. *)
Inductive JSVal : Type :=
  | VUndefined
  | VNull
  | VBool (b : bool)
  | VNum (z : Z)
  | VStr (s : string)
  | VDate (ms : Z)
  | VArr (l : list JSVal)
  | VObj (o : gmap string JSVal).

Abbreviation jsobj := (gmap string JSVal).

(** [ToBoolean]: what [!v], [v || w] and [if (v)] look at. *)
Definition truthy (v : JSVal) : bool :=
  match v with
  | VUndefined | VNull => false
  | VBool b => b
  | VNum z => negb (z =? 0)
  | VStr s => negb (String.eqb s EmptyString)
  | VDate _ | VArr _ | VObj _ => true
  end.

(** [a || b] *)
Definition js_or (a b : JSVal) : JSVal := if truthy a then a else b.

(** [o.k] on an object: a missing property reads as [undefined]. *)
Definition field (o : jsobj) (k : string) : JSVal := default VUndefined (o !! k).

(** [{...a, ...b}]: the properties of [b] override those of [a]. *)
Definition spread (a b : jsobj) : jsobj := b ∪ a.

(** [v.k] on an arbitrary value.  Reading a property of [undefined] or
    [null] throws a [TypeError] ([None]); the property names read by the
    handlers ([data], [accessToken], [success], [error], [id], ...) are
    not built-in properties of primitives, arrays or dates, so there they
    read as [undefined]. *)
Definition get_prop (v : JSVal) (k : string) : option JSVal :=
  match v with
  | VUndefined | VNull => None
  | VObj o => Some (field o k)
  | _ => Some VUndefined
  end.

(** [v?.k]: short-circuits to [undefined] on [undefined] and [null]. *)
Definition opt_chain (v : JSVal) (k : string) : JSVal :=
  match v with
  | VObj o => field o k
  | _ => VUndefined
  end.

(** [Number.prototype.toString] / string concatenation with a number,
    on the integers. *)
Definition num_to_string (z : Z) : string := pretty z.

(** [String(v)].  An array joins its elements with commas, [null] and
    [undefined] elements giving the empty string.  A [Date] is rendered in
    the locale of the host; no handler renders one ([JSON.parse] yields no
    dates), and it is shown here by a placeholder. *)
Fixpoint js_String (v : JSVal) : string :=
  match v with
  | VUndefined => "undefined"
  | VNull => "null"
  | VBool true => "true"
  | VBool false => "false"
  | VNum z => num_to_string z
  | VStr s => s
  | VDate _ => "[date]"
  | VArr l =>
      String.concat ","
        (List.map (λ e, match e with
                        | VUndefined | VNull => EmptyString
                        | _ => js_String e
                        end) l)
  | VObj _ => "[object Object]"
  end.

(** [v.toString()]: throws ([None]) on [undefined] and [null]. *)
Definition to_string (v : JSVal) : option string :=
  match v with
  | VUndefined | VNull => None
  | _ => Some (js_String v)
  end.

End JS.

Import JS.

(* ===================================================================== *)
(** ** [Map<number, V>]: insertion-ordered, one entry per key *)
(* ===================================================================== *)

Section JSMap.
Context {V : Type}.

(** [m.get(k)] *)
Fixpoint map_get (k : Z) (m : list (Z * V)) : option V :=
  match m with
  | [] => None
  | (k', v) :: m' => if decide (k = k') then Some v else map_get k m'
  end.

(** [m.set(k, v)]: an existing key keeps its position, a new key goes
    to the end. *)
Fixpoint map_set (k : Z) (v : V) (m : list (Z * V)) : list (Z * V) :=
  match m with
  | [] => [(k, v)]
  | (k', v') :: m' =>
      if decide (k = k') then (k, v) :: m' else (k', v') :: map_set k v m'
  end.

(** [m.delete(k)] *)
Fixpoint map_delete (k : Z) (m : list (Z * V)) : list (Z * V) :=
  match m with
  | [] => []
  | (k', v') :: m' =>
      if decide (k = k') then map_delete k m' else (k', v') :: map_delete k m'
  end.

(** [Array.from(m.values())] *)
Definition map_values (m : list (Z * V)) : list V := m.*2.

Definition map_keys (m : list (Z * V)) : list Z := m.*1.

End JSMap.

(** An object literal [{k1: v1, ..., kn: vn}] with distinct keys. *)
Definition obj (l : list (string * JSVal)) : jsobj := list_to_map l.

(* ===================================================================== *)
(** ** The Local Record Store: [src/server/storage.ts] *)
(* ===================================================================== *)

Module Storage.

(** [User] and [InsertUser] of the shared schema. *)
Record InsertUser := { iu_username : string; iu_password : string }.
Record User := { user_id : Z; user_username : string; user_password : string }.

(** [InsertSession] and [Session].  The tokens come from the untyped
    upstream JSON and are stored as they are, hence [JSVal]; the two
    timestamps are epoch milliseconds. *)
Record InsertSession := {
  is_userId : Z;
  is_accessToken : JSVal;
  is_refreshToken : JSVal;
  is_expiresAt : Z
}.

Record Session := {
  session_id : Z;
  session_userId : Z;
  session_accessToken : JSVal;
  session_refreshToken : JSVal;
  session_expiresAt : Z;
  session_createdAt : Z
}.

(** An agent record is a plain object: the store spreads whatever
    properties it is given ([{...insertAgent, id, ...}],
    [{...existingAgent, ...updateData}]). *)
Abbreviation Agent := jsobj.

(** The private fields of [class MemStorage]. *)
Record MemStorage := {
  users : list (Z * User);
  sessions : list (Z * Session);
  agents : list (Z * Agent);
  currentUserId : Z;
  currentSessionId : Z;
  currentAgentId : Z
}.

Definition with_users (st : MemStorage) (u : list (Z * User)) (n : Z) : MemStorage :=
  {| users := u; sessions := sessions st; agents := agents st;
     currentUserId := n; currentSessionId := currentSessionId st;
     currentAgentId := currentAgentId st |}.

Definition with_sessions (st : MemStorage) (s : list (Z * Session)) (n : Z) : MemStorage :=
  {| users := users st; sessions := s; agents := agents st;
     currentUserId := currentUserId st; currentSessionId := n;
     currentAgentId := currentAgentId st |}.

Definition with_agents (st : MemStorage) (a : list (Z * Agent)) (n : Z) : MemStorage :=
  {| users := users st; sessions := sessions st; agents := a;
     currentUserId := currentUserId st; currentSessionId := currentSessionId st;
     currentAgentId := n |}.

(** The literal [demoAgents] of [seedDemoAgents]. *)
Definition demoAgents : list jsobj :=
  [ obj [ ("prompt", VStr "Customer Support Agent");
          ("description", VStr "Handles customer inquiries and support tickets");
          ("first_message",
           VStr "Hello! I'm here to help you with any questions or issues you may have.");
          ("created_by", VStr "admin") ];
    obj [ ("prompt", VStr "Sales Assistant");
          ("description", VStr "Helps with product information and sales inquiries");
          ("first_message",
           VStr "Hi there! I can help you find the perfect product for your needs.");
          ("created_by", VStr "admin") ];
    obj [ ("prompt", VStr "Technical Support");
          ("description", VStr "Provides technical assistance and troubleshooting");
          ("first_message",
           VStr "Welcome! I'm here to help resolve any technical issues you're experiencing.");
          ("created_by", VStr "admin") ] ].

(** The body of the [forEach] callback of [seedDemoAgents]; [now] is the
    value of its [new Date()]. *)
Definition seed_one (now : Z) (agentData : jsobj) (st : MemStorage) : MemStorage :=
  let id := currentAgentId st in
  let agent : Agent :=
    spread agentData
      (obj [ ("id", VNum id); ("externalId", VNull); ("created_at", VDate now) ]) in
  with_agents st (map_set id agent (agents st)) (id + 1).

(** [demoAgents.forEach(...)]: the [i]-th call of the callback reads the
    clock as [clock i]. *)
Fixpoint forEach_seed (l : list jsobj) (i : nat) (clock : nat → Z)
    (st : MemStorage) : MemStorage :=
  match l with
  | [] => st
  | agentData :: l' => forEach_seed l' (S i) clock (seed_one (clock i) agentData st)
  end.

Definition seedDemoAgents (clock : nat → Z) (st : MemStorage) : MemStorage :=
  forEach_seed demoAgents 0%nat clock st.

(** [new MemStorage()] *)
Definition constructor (clock : nat → Z) : MemStorage :=
  seedDemoAgents clock
    {| users := []; sessions := []; agents := [];
       currentUserId := 1; currentSessionId := 1; currentAgentId := 1 |}.

Definition getUser (id : Z) (st : MemStorage) : option User :=
  map_get id (users st).

Definition getUserByUsername (username : string) (st : MemStorage) : option User :=
  List.find (λ user, String.eqb (user_username user) username) (map_values (users st)).

Definition createUser (insertUser : InsertUser) (st : MemStorage) : User * MemStorage :=
  let id := currentUserId st in
  let user := {| user_id := id; user_username := iu_username insertUser;
                 user_password := iu_password insertUser |} in
  (user, with_users st (map_set id user (users st)) (id + 1)).

(** [now] is the value of [new Date()] in the body. *)
Definition createSession (insertSession : InsertSession) (now : Z) (st : MemStorage)
    : Session * MemStorage :=
  let id := currentSessionId st in
  let session :=
    {| session_id := id;
       session_userId := is_userId insertSession;
       session_accessToken := is_accessToken insertSession;
       session_refreshToken := js_or (is_refreshToken insertSession) VNull;
       session_expiresAt := is_expiresAt insertSession;
       session_createdAt := now |} in
  (session, with_sessions st (map_set (is_userId insertSession) session (sessions st)) (id + 1)).

Definition getSession (userId : Z) (st : MemStorage) : option Session :=
  map_get userId (sessions st).

Definition deleteSession (userId : Z) (st : MemStorage) : MemStorage :=
  with_sessions st (map_delete userId (sessions st)) (currentSessionId st).

Definition getAgents (st : MemStorage) : list Agent :=
  map_values (agents st).

Definition getAgent (id : Z) (st : MemStorage) : option Agent :=
  map_get id (agents st).

Definition createAgent (insertAgent : jsobj) (now : Z) (st : MemStorage)
    : Agent * MemStorage :=
  let id := currentAgentId st in
  let agent : Agent :=
    spread insertAgent
      (obj [ ("id", VNum id);
             ("externalId", js_or (field insertAgent "externalId") VNull);
             ("created_at", VDate now) ]) in
  (agent, with_agents st (map_set id agent (agents st)) (id + 1)).

Definition updateAgent (id : Z) (updateData : jsobj) (st : MemStorage)
    : option Agent * MemStorage :=
  match map_get id (agents st) with
  | None => (None, st)
  | Some existingAgent =>
      let updatedAgent : Agent := spread existingAgent updateData in
      (Some updatedAgent,
       with_agents st (map_set id updatedAgent (agents st)) (currentAgentId st))
  end.

Definition deleteAgent (id : Z) (st : MemStorage) : MemStorage :=
  with_agents st (map_delete id (agents st)) (currentAgentId st).

(** The mutating operations of [IStorage], as data, and a trace of them
    applied in sequence. *)
Inductive StoreOp :=
  | OpCreateUser (insertUser : InsertUser)
  | OpCreateSession (insertSession : InsertSession) (now : Z)
  | OpDeleteSession (userId : Z)
  | OpCreateAgent (insertAgent : jsobj) (now : Z)
  | OpUpdateAgent (id : Z) (updateData : jsobj)
  | OpDeleteAgent (id : Z).

Definition apply_op (op : StoreOp) (st : MemStorage) : MemStorage :=
  match op with
  | OpCreateUser iu => (createUser iu st).2
  | OpCreateSession ins now => (createSession ins now st).2
  | OpDeleteSession u => deleteSession u st
  | OpCreateAgent a now => (createAgent a now st).2
  | OpUpdateAgent id upd => (updateAgent id upd st).2
  | OpDeleteAgent id => deleteAgent id st
  end.

Definition run_ops (ops : list StoreOp) (st : MemStorage) : MemStorage :=
  fold_left (λ s op, apply_op op s) ops st.

(** The stored sessions that belong to a user. *)
Definition sessions_of (userId : Z) (st : MemStorage) : list Session :=
  filter (λ s, session_userId s = userId) (map_values (sessions st)).

(** The invariants of the two maps that the claims rest on: agent ids are
    handed out in increasing order and stay below the counter; the session
    map is keyed by the [userId] of the session it holds. *)
Definition agents_inv (st : MemStorage) : Prop :=
  StronglySorted Z.lt (map_keys (agents st)) ∧
  Forall (λ k, k < currentAgentId st) (map_keys (agents st)).

Definition sessions_inv (st : MemStorage) : Prop :=
  NoDup (map_keys (sessions st)) ∧
  Forall (λ kv, session_userId kv.2 = kv.1) (sessions st).

End Storage.

Import Storage.

(* ===================================================================== *)
(** ** Request validation: the [zod] schemas of the shared schema module *)
(* ===================================================================== *)

Module Zod.

(** The field validators that occur: [z.string()], [z.string().min(1)],
    and the validator of a nullable text column
    ([z.string().nullable().optional()]). *)
Inductive ZField := ZString | ZStringMin1 | ZStringNullish.

Definition ZSchema := list (string * ZField).

(** Does the value found under a key pass?  A missing key reads as
    [undefined]; [partial] is [schema.partial()]. *)
Definition zfield_ok (f : ZField) (partial : bool) (v : JSVal) : bool :=
  match f, v with
  | ZString, VStr _ => true
  | ZString, VUndefined => partial
  | ZStringMin1, VStr s => negb (String.eqb s EmptyString)
  | ZStringMin1, VUndefined => partial
  | ZStringNullish, (VStr _ | VNull | VUndefined) => true
  | _, _ => false
  end.

(** [z.object(schema).parse(body)]: [None] stands for a thrown [ZodError];
    keys outside the schema are stripped. *)
Definition zobject_parse (schema : ZSchema) (partial : bool) (body : JSVal)
    : option jsobj :=
  match body with
  | VObj o =>
      if forallb (λ kf, zfield_ok kf.2 partial (field o kf.1)) schema
      then Some (filter (λ kv, kv.1 ∈ schema.*1) o)
      else None
  | _ => None
  end.

Definition loginSchema : ZSchema :=
  [ ("username", ZStringMin1); ("password", ZStringMin1) ].

(** [const { username, password } = loginSchema.parse(req.body)] *)
Definition loginSchema_parse (body : JSVal) : option (string * string) :=
  match zobject_parse loginSchema false body with
  | Some o =>
      match field o "username", field o "password" with
      | VStr username, VStr password => Some (username, password)
      | _, _ => None
      end
  | None => None
  end.

(** [insertAgentSchema] as the shared schema module under [src/] declares
    it: the [agents] table without [id] and [createdAt]. *)
Definition insertAgentSchema_v0 : ZSchema :=
  [ ("name", ZString); ("description", ZString);
    ("firstMessage", ZString); ("createdBy", ZString) ].

End Zod.
Import Zod.

(* ===================================================================== *)
(** ** The handler monad: store, clock, outbound calls, exceptions *)
(* ===================================================================== *)

Module Http.

(** An outbound [fetch]: the form body is the record handed to
    [URLSearchParams]. *)
Record FetchReq := {
  fr_url : string;
  fr_method : string;
  fr_headers : list (string * string);
  fr_body : list (string * JSVal)
}.

Record Response := {
  resp_status : Z;
  resp_statusText : string;
  resp_text : string
}.

(** A [fetch] either rejects (transport error) or resolves to a response. *)
Inductive FetchResult := NetworkError | Responded (r : Response).

(** [response.ok] *)
Definition resp_ok (r : Response) : bool :=
  (200 <=? resp_status r) && (resp_status r <=? 299).

(** What the handlers get from the host: the wall clock (its [n]-th
    reading), the upstream service, the built-ins [JSON.parse] ([None]: a
    [SyntaxError]), [parseInt] ([None]: [NaN]) and the local-time
    arithmetic of [d.setHours(d.getHours() + h)], and [process.env]. *)
Record Env := {
  clock : nat → Z;
  upstream : FetchReq → FetchResult;
  JSON_parse : string → option JSVal;
  parseInt : string → option Z;
  plus_hours : Z → Z → Z;
  CLIENT_ID : option string;
  CLIENT_SECRET : option string;
  NODE_ENV : option string
}.

(** The mutable world: the exported [storage] singleton, how often the
    clock has been read, and the outbound calls issued so far. *)
Record World := {
  store : MemStorage;
  ticks : nat;
  outbound : list FetchReq
}.

Inductive Exn := ZodError | TypeError | SyntaxError | FetchError.

Definition M (A : Type) : Type := Env → World → (Exn + A) * World.

Definition ret {A} (a : A) : M A := λ _ w, (inr a, w).

Definition bind {A B} (m : M A) (k : A → M B) : M B :=
  λ env w,
    match m env w with
    | (inl e, w') => (inl e, w')
    | (inr a, w') => k a env w'
    end.

Definition throw {A} (e : Exn) : M A := λ _ w, (inl e, w).

(** [try { m } catch (e) { h e }] *)
Definition try_catch {A} (m : M A) (h : Exn → M A) : M A :=
  λ env w,
    match m env w with
    | (inl e, w') => h e env w'
    | (inr a, w') => (inr a, w')
    end.

Definition ask : M Env := λ env w, (inr env, w).

(** A value that may have thrown [e]. *)
Definition or_throw {A} (e : Exn) (o : option A) : M A :=
  match o with Some a => ret a | None => throw e end.

(** [new Date()] / [Date.now()] *)
Definition date_now : M Z :=
  λ env w,
    (inr (clock env (ticks w)),
     {| store := store w; ticks := S (ticks w); outbound := outbound w |}).

(** [await fetch(url, init)] *)
Definition fetch (r : FetchReq) : M Response :=
  λ env w,
    let w' := {| store := store w; ticks := ticks w; outbound := outbound w ++ [r] |} in
    match upstream env r with
    | NetworkError => (inl FetchError, w')
    | Responded resp => (inr resp, w')
    end.

(** Reading from and writing to the [storage] singleton. *)
Definition storage_read {A} (f : MemStorage → A) : M A :=
  λ _ w, (inr (f (store w)), w).

Definition storage_run {A} (f : MemStorage → A * MemStorage) : M A :=
  λ _ w,
    let '(a, st) := f (store w) in
    (inr a, {| store := st; ticks := ticks w; outbound := outbound w |}).

Definition storage_createSession (ins : InsertSession) : M Session :=
  bind date_now (λ now, storage_run (createSession ins now)).

Definition storage_createAgent (insertAgent : jsobj) : M Agent :=
  bind date_now (λ now, storage_run (createAgent insertAgent now)).

(** The id of a route is [parseInt(req.params.id)]; the maps never hold
    the key [NaN], so looking it up finds nothing and deleting it removes
    nothing. *)
Definition storage_getAgent (agentId : option Z) : M (option Agent) :=
  storage_read (λ st, match agentId with Some id => getAgent id st | None => None end).

Definition storage_updateAgent (agentId : option Z) (updateData : jsobj)
    : M (option Agent) :=
  storage_run (λ st,
    match agentId with Some id => updateAgent id updateData st | None => (None, st) end).

Definition storage_deleteAgent (agentId : option Z) : M unit :=
  storage_run (λ st,
    (tt, match agentId with Some id => deleteAgent id st | None => st end)).

(** [await response.json()] *)
Definition response_json (r : Response) : M JSVal :=
  bind ask (λ env, or_throw SyntaxError (JSON_parse env (resp_text r))).

(** The incoming request: [req.cookies?.auth_token], [req.body],
    [req.params.id]. *)
Record Request := {
  req_auth_token : option string;
  req_body : JSVal;
  req_params_id : string
}.

(** [!token] *)
Definition no_token (token : option string) : bool :=
  match token with
  | None => true
  | Some t => String.eqb t EmptyString
  end.

(** The token once [!token] has been ruled out. *)
Definition token_string (token : option string) : string := default EmptyString token.

Record CookieOptions := {
  httpOnly : bool;
  secure : bool;
  sameSite : string;
  maxAge : Z
}.

(** What the handler has sent when it finishes. *)
Record Res := {
  res_status : Z;
  res_body : JSVal;
  res_cookies : list (string * JSVal * CookieOptions);
  res_cleared : list string
}.

(** [res.status(code).json(body)]; [res.json(body)] is [json 200 body]. *)
Definition json (code : Z) (body : JSVal) : Res :=
  {| res_status := code; res_body := body; res_cookies := []; res_cleared := [] |}.

(** [res.cookie(name, value, options)] before the body is sent. *)
Definition with_cookie (name : string) (value : JSVal) (o : CookieOptions) (r : Res) : Res :=
  {| res_status := res_status r; res_body := res_body r;
     res_cookies := res_cookies r ++ [(name, value, o)];
     res_cleared := res_cleared r |}.

(** [res.clearCookie(name)] *)
Definition with_cleared (name : string) (r : Res) : Res :=
  {| res_status := res_status r; res_body := res_body r;
     res_cookies := res_cookies r; res_cleared := res_cleared r ++ [name] |}.

Definition message (m : string) : JSVal := VObj (obj [ ("message", VStr m) ]).

(** [process.env.X || fallback] *)
Definition env_or (x : option string) (fallback : string) : string :=
  match x with
  | Some s => if String.eqb s EmptyString then fallback else s
  | None => fallback
  end.

(** The cookie options every login uses. *)
Definition auth_cookie_options (env : Env) : CookieOptions :=
  {| httpOnly := true;
     secure := bool_decide (NODE_ENV env = Some "production");
     sameSite := "strict";
     maxAge := 24 * 60 * 60 * 1000 |}.

(** A route handler: the outer [try { ... } catch (error) { ... }] turns
    every exception into a response. *)
Definition Handler := Env → World → Res * World.

Definition handle (body : M Res) (on_error : Exn → Res) : Handler :=
  λ env w,
    match body env w with
    | (inl e, w') => (on_error e, w')
    | (inr r, w') => (r, w')
    end.

(** The [catch] of the handlers that validate a body.  The 400 body also
    carries zod's issue list under [errors]; its content is not modelled. *)
Definition catch_zod (generic : string) (e : Exn) : Res :=
  match e with
  | ZodError => json 400 (VObj (obj [ ("message", VStr "Validation error") ]))
  | _ => json 500 (message generic)
  end.

End Http.
Import Http.

Notation "'let*' x ':=' m 'in' k" := (bind m (λ x, k))
  (at level 10, x pattern, m at level 100, k at level 200).

(* ===================================================================== *)
(** ** The route handlers of [src/server/routes.ts] *)
(* ===================================================================== *)

Module Routes.
Section RoutesHandlers.

(** [insertAgentSchema] of the shared schema module, in the version these
    routes were written against (it also admits [externalId]). *)
Variable insertAgentSchema : ZSchema.

Definition login_request (env : Env) (username password : string) : FetchReq :=
  {| fr_url := "https://ai.metqm.com/api/adminportal/get_accesstoken.cfm";
     fr_method := "POST";
     fr_headers := [ ("Content-Type", "application/x-www-form-urlencoded") ];
     fr_body :=
       [ ("grant_type", VStr "password");
         ("username", VStr username);
         ("password", VStr password);
         ("client_id", VStr (env_or (CLIENT_ID env) "mywebclient"));
         ("client_secret", VStr (env_or (CLIENT_SECRET env) "mysecretclientpassword"));
         ("scope", VStr "openid profile email") ] |}.

(** The tail shared by every successful login: resolve or create the
    user, create the session, set the cookie, answer. *)
Definition establish_session (username password : string)
    (accessToken refreshToken : JSVal) : M Res :=
  let* found := storage_read (getUserByUsername username) in
  let* user :=
    match found with
    | Some user => ret user
    | None => storage_run (createUser {| iu_username := username; iu_password := password |})
    end in
  let* env := ask in
  let* now := date_now in
  let expiresAt := plus_hours env now 24 in
  let* _ := storage_createSession
              {| is_userId := user_id user;
                 is_accessToken := accessToken;
                 is_refreshToken := js_or refreshToken VNull;
                 is_expiresAt := expiresAt |} in
  ret (with_cookie "auth_token" accessToken (auth_cookie_options env)
         (json 200 (VObj (obj
            [ ("success", VBool true);
              ("message", VStr "Login successful");
              ("user", VObj (obj [ ("id", VNum (user_id user));
                                   ("username", VStr (user_username user)) ])) ])))).

(** [app.post("/api/auth/login", ...)] *)
Definition post_login (req : Request) : Handler :=
  handle
    (let* (username, password) := or_throw ZodError (loginSchema_parse (req_body req)) in
     let* env := ask in
     let* response := fetch (login_request env username password) in
     if negb (resp_ok response) then
       ret (json 401 (message "Authentication failed. Please check your credentials."))
     else
       match JSON_parse env (resp_text response) with
       | None =>
           ret (json 401 (message "Authentication server returned invalid response format."))
       | Some authData =>
           let* data := or_throw TypeError (get_prop authData "data") in
           let* access_token := or_throw TypeError (get_prop authData "access_token") in
           let accessToken := js_or (opt_chain data "accessToken") access_token in
           let* refresh_token := or_throw TypeError (get_prop authData "refresh_token") in
           let refreshToken := js_or (opt_chain data "refreshToken") refresh_token in
           if negb (truthy accessToken) then
             ret (json 401 (message "Authentication failed. No access token received."))
           else
             establish_session username password accessToken refreshToken
       end)
    (catch_zod "Internal server error. Please try again later.").

(** [app.post("/api/auth/logout", ...)] *)
Definition post_logout (req : Request) : Handler :=
  handle
    (ret (with_cleared "auth_token"
            (json 200 (VObj (obj [ ("success", VBool true);
                                   ("message", VStr "Logged out successfully") ])))))
    (λ _, json 500 (message "Error during logout")).

(** [app.get("/api/auth/me", ...)] *)
Definition get_me (req : Request) : Handler :=
  handle
    (let token := req_auth_token req in
     if no_token token then ret (json 401 (message "Not authenticated"))
     else ret (json 200 (VObj (obj [ ("authenticated", VBool true) ]))))
    (λ _, json 500 (message "Error checking authentication")).

Definition list_request (token : string) : FetchReq :=
  {| fr_url := "https://ai.metqm.com/api/adminportal/get_agentlist_r1.cfm";
     fr_method := "GET";
     fr_headers := [ ("Authorization", "Bearer " +:+ token) ];
     fr_body := [] |}.

(** [app.get("/api/agents", ...)] *)
Definition get_agents (req : Request) : Handler :=
  handle
    (let token := req_auth_token req in
     if no_token token then ret (json 401 (message "Not authenticated"))
     else
       try_catch
         (let* response := fetch (list_request (token_string token)) in
          if negb (resp_ok response) then
            ret (json (resp_status response) (message "Failed to fetch agents from API"))
          else
            let* agents := response_json response in
            ret (json 200 agents))
         (λ _, ret (json 500 (message "Error connecting to agent API"))))
    (λ _, json 500 (message "Error fetching agents")).

Definition create_request (token : string) (agentData : jsobj) : FetchReq :=
  {| fr_url := "https://ai.metqm.com/api/adminportal/put_addagent.cfm";
     fr_method := "POST";
     fr_headers := [ ("Authorization", "Bearer " +:+ token);
                     ("Content-Type", "application/x-www-form-urlencoded") ];
     fr_body := [ ("prompt", field agentData "name");
                  ("first_message", field agentData "firstMessage");
                  ("descp", field agentData "description") ] |}.

(** [app.post("/api/agents", ...)] *)
Definition post_agents (req : Request) : Handler :=
  handle
    (let token := req_auth_token req in
     if no_token token then ret (json 401 (message "Not authenticated"))
     else
       let* agentData :=
         or_throw ZodError (zobject_parse insertAgentSchema false (req_body req)) in
       let* response := fetch (create_request (token_string token) agentData) in
       if negb (resp_ok response) then
         ret (json (resp_status response) (message "Failed to create agent via external API"))
       else
         let* apiResult := response_json response in
         let* success := or_throw TypeError (get_prop apiResult "success") in
         if negb (truthy success) then
           let* error := or_throw TypeError (get_prop apiResult "error") in
           ret (json 400 (VObj (obj
                  [ ("message", js_or error (VStr "Failed to create agent")) ])))
         else
           let* data := or_throw TypeError (get_prop apiResult "data") in
           let* id := or_throw TypeError (get_prop data "id") in
           let* externalId := or_throw TypeError (to_string id) in
           let* createdAgent :=
             storage_createAgent
               (obj [ ("name", field agentData "name");
                      ("description", field agentData "description");
                      ("firstMessage", field agentData "firstMessage");
                      ("createdBy", field agentData "createdBy");
                      ("externalId", VStr externalId) ]) in
           ret (json 201 (VObj (obj [ ("success", VBool true);
                                      ("agent", VObj createdAgent);
                                      ("externalData", data) ]))))
    (catch_zod "Error creating agent").

Definition update_request (token : string) (agentId : Z)
    (existingAgent updateData : jsobj) : FetchReq :=
  let externalAgentId :=
    js_or (field existingAgent "externalId") (VStr (num_to_string agentId)) in
  {| fr_url := "https://ai.metqm.com/api/adminportal/put_editagent.cfm";
     fr_method := "POST";
     fr_headers := [ ("Authorization", "Bearer " +:+ token);
                     ("Content-Type", "application/x-www-form-urlencoded") ];
     fr_body :=
       [ ("id", externalAgentId);
         ("prompt", js_or (field updateData "name") (field existingAgent "name"));
         ("first_message",
          js_or (field updateData "firstMessage") (field existingAgent "firstMessage"));
         ("descp",
          js_or (field updateData "description") (field existingAgent "description")) ] |}.

(** [app.patch("/api/agents/:id", ...)] *)
Definition patch_agent (req : Request) : Handler :=
  handle
    (let token := req_auth_token req in
     if no_token token then ret (json 401 (message "Not authenticated"))
     else
       let* env := ask in
       let agentId := parseInt env (req_params_id req) in
       let* updateData :=
         or_throw ZodError (zobject_parse insertAgentSchema true (req_body req)) in
       let* existing := storage_getAgent agentId in
       match existing, agentId with
       | Some existingAgent, Some id =>
           let* response :=
             fetch (update_request (token_string token) id existingAgent updateData) in
           let responseText := resp_text response in
           if negb (resp_ok response) then
             ret (json (resp_status response)
                    (message ("Failed to update agent via external API: "
                              +:+ num_to_string (resp_status response) +:+ " "
                              +:+ resp_statusText response)))
           else
             match JSON_parse env responseText with
             | None => ret (json 500 (message "External API returned invalid JSON response"))
             | Some apiResult =>
                 let* success := or_throw TypeError (get_prop apiResult "success") in
                 if negb (truthy success) then
                   let* error := or_throw TypeError (get_prop apiResult "error") in
                   ret (json 400 (VObj (obj
                          [ ("message", js_or error (VStr "Failed to update agent")) ])))
                 else
                   let* updatedLocalAgent := storage_updateAgent agentId updateData in
                   let* data := or_throw TypeError (get_prop apiResult "data") in
                   ret (json 200 (VObj (obj
                          [ ("success", VBool true);
                            ("agent", from_option VObj VUndefined updatedLocalAgent);
                            ("externalData", data) ])))
             end
       | _, _ => ret (json 404 (message "Agent not found"))
       end)
    (catch_zod "Error updating agent").

(** [app.delete("/api/agents/:id", ...)] *)
Definition delete_agent (req : Request) : Handler :=
  handle
    (let token := req_auth_token req in
     if no_token token then ret (json 401 (message "Not authenticated"))
     else
       let* env := ask in
       let agentId := parseInt env (req_params_id req) in
       let* _ := storage_deleteAgent agentId in
       ret (json 200 (VObj (obj [ ("success", VBool true);
                                  ("message", VStr "Agent deleted successfully") ]))))
    (λ _, json 500 (message "Error deleting agent")).

(** The file ends with an earlier copy of [registerRoutes] (lines
    386-508).  Its logout and [me] routes are those above; its login posts
    to the agent-list address with other default client credentials,
    parses the body with [response.json()] and looks for the token in the
    flat shape only. *)
Definition login_request_legacy (env : Env) (username password : string) : FetchReq :=
  {| fr_url := "https://ai.metqm.com/api/adminportal/get_agentlist_r1.cfm";
     fr_method := "POST";
     fr_headers := [ ("Content-Type", "application/x-www-form-urlencoded") ];
     fr_body :=
       [ ("grant_type", VStr "password");
         ("username", VStr username);
         ("password", VStr password);
         ("client_id", VStr (env_or (CLIENT_ID env) "default_client_id"));
         ("client_secret", VStr (env_or (CLIENT_SECRET env) "default_client_secret"));
         ("scope", VStr "openid profile email") ] |}.

Definition post_login_legacy (req : Request) : Handler :=
  handle
    (let* (username, password) := or_throw ZodError (loginSchema_parse (req_body req)) in
     let* env := ask in
     let* response := fetch (login_request_legacy env username password) in
     if negb (resp_ok response) then
       ret (json 401 (message "Authentication failed. Please check your credentials."))
     else
       let* authData := response_json response in
       let* access_token := or_throw TypeError (get_prop authData "access_token") in
       if negb (truthy access_token) then
         ret (json 401 (message "Authentication failed. Invalid response from server."))
       else
         let* refresh_token := or_throw TypeError (get_prop authData "refresh_token") in
         establish_session username password access_token refresh_token)
    (catch_zod "Internal server error. Please try again later.").

End RoutesHandlers.
End Routes.

(* ===================================================================== *)
(** ** The draft of the routes with the demo login and the local fallback *)
(* ===================================================================== *)

(** The variant of [registerRoutes] kept next to [routes.ts]: its login
    recognises the demo credentials, its agent list falls back to the
    local store, and its create, update and delete work on the local
    store only.  It runs against the same [storage] interface. *)
Module Draft.
Section DraftHandlers.

Variable insertAgentSchema : ZSchema.

(** [app.post("/api/auth/login", ...)] *)
Definition post_login_draft (req : Request) : Handler :=
  handle
    (let* (username, password) := or_throw ZodError (loginSchema_parse (req_body req)) in
     if String.eqb username "testuser" && String.eqb password "password123" then
       let* found := storage_read (getUserByUsername username) in
       let* user :=
         match found with
         | Some user => ret user
         | None =>
             storage_run (createUser {| iu_username := username; iu_password := password |})
         end in
       let* env := ask in
       let* now := date_now in
       let expiresAt := plus_hours env now 24 in
       let* session_now := date_now in
       let* _ := storage_createSession
                   {| is_userId := user_id user;
                      is_accessToken := VStr ("demo_token_" +:+ num_to_string session_now);
                      is_refreshToken := VNull;
                      is_expiresAt := expiresAt |} in
       let* cookie_now := date_now in
       ret (with_cookie "auth_token"
              (VStr ("demo_token_" +:+ num_to_string cookie_now))
              (auth_cookie_options env)
              (json 200 (VObj (obj
                 [ ("success", VBool true);
                   ("message", VStr "Login successful");
                   ("user", VObj (obj [ ("id", VNum (user_id user));
                                        ("username", VStr (user_username user)) ])) ]))))
     else
       let* env := ask in
       let* response := fetch (Routes.login_request env username password) in
       if negb (resp_ok response) then
         ret (json 401 (message "Authentication failed. Please check your credentials."))
       else
         match JSON_parse env (resp_text response) with
         | None =>
             ret (json 401 (message
               "Authentication server returned invalid response format. Try demo credentials: testuser/password123"))
         | Some authData =>
             let* access_token := or_throw TypeError (get_prop authData "access_token") in
             if negb (truthy access_token) then
               ret (json 401 (message "Authentication failed. Invalid response from server."))
             else
               let* refresh_token := or_throw TypeError (get_prop authData "refresh_token") in
               Routes.establish_session username password access_token refresh_token
         end)
    (catch_zod "Internal server error. Please try again later.").

(** [app.get("/api/agents", ...)] *)
Definition get_agents_draft (req : Request) : Handler :=
  handle
    (let token := req_auth_token req in
     if no_token token then ret (json 401 (message "Not authenticated"))
     else if String.prefix "demo_token_" (token_string token) then
       let* agents := storage_read getAgents in
       ret (json 200 (VArr (VObj <$> agents)))
     else
       try_catch
         (let* response := fetch (Routes.list_request (token_string token)) in
          if negb (resp_ok response) then
            let* agents := storage_read getAgents in
            ret (json 200 (VArr (VObj <$> agents)))
          else
            let* agents := response_json response in
            ret (json 200 agents))
         (λ _,
            let* agents := storage_read getAgents in
            ret (json 200 (VArr (VObj <$> agents)))))
    (λ _, json 500 (message "Error fetching agents")).

(** [app.post("/api/agents", ...)] *)
Definition post_agents_draft (req : Request) : Handler :=
  handle
    (let token := req_auth_token req in
     if no_token token then ret (json 401 (message "Not authenticated"))
     else
       let* agentData :=
         or_throw ZodError (zobject_parse insertAgentSchema false (req_body req)) in
       let* agent := storage_createAgent agentData in
       ret (json 201 (VObj agent)))
    (catch_zod "Error creating agent").

(** [app.put("/api/agents/:id", ...)] *)
Definition put_agent (req : Request) : Handler :=
  handle
    (let token := req_auth_token req in
     if no_token token then ret (json 401 (message "Not authenticated"))
     else
       let* env := ask in
       let agentId := parseInt env (req_params_id req) in
       let* updateData :=
         or_throw ZodError (zobject_parse insertAgentSchema true (req_body req)) in
       let* updatedAgent := storage_updateAgent agentId updateData in
       match updatedAgent with
       | None => ret (json 404 (message "Agent not found"))
       | Some agent => ret (json 200 (VObj agent))
       end)
    (catch_zod "Error updating agent").

End DraftHandlers.
End Draft.

(* ===================================================================== *)
(** ** Vocabulary of the properties *)
(* ===================================================================== *)

(** The world once the outbound call [r] has been issued. *)
Definition sent (r : FetchReq) (w : World) : World :=
  {| store := store w; ticks := ticks w; outbound := outbound w ++ [r] |}.

(** The upstream call [r] fails: the transport rejects, or the response
    is not 2xx. *)
Definition upstream_fails (env : Env) (r : FetchReq) : Prop :=
  upstream env r = NetworkError ∨
  ∃ resp, upstream env r = Responded resp ∧ resp_ok resp = false.

(** The account a login resolves to: the stored one, or the one that
    [createUser] makes. *)
Definition login_user (username password : string) (st : MemStorage) : User :=
  match getUserByUsername username st with
  | Some user => user
  | None => (createUser {| iu_username := username; iu_password := password |} st).1
  end.

(** Whether the id of a route names no stored agent. *)
Definition absent_id (agentId : option Z) (st : MemStorage) : Prop :=
  match agentId with
  | Some id => getAgent id st = None
  | None => True
  end.

(** User ids are handed out in increasing order, stay below the counter,
    and each account is filed under its own id. *)
Definition users_inv (st : MemStorage) : Prop :=
  StronglySorted Z.lt (map_keys (users st)) ∧
  Forall (λ k, k < currentUserId st) (map_keys (users st)) ∧
  Forall (λ kv, user_id kv.2 = kv.1) (users st).

(** No two stored accounts share a username. *)
Definition usernames_unique (st : MemStorage) : Prop :=
  NoDup (user_username <$> map_values (users st)).

(** A stored refresh token is [null] or a truthy value. *)
Definition refresh_normalised (s : Session) : Prop :=
  session_refreshToken s = VNull ∨ truthy (session_refreshToken s) = true.

(** The operation does not overwrite the [id] property of a record. *)
Definition carries_no_id (op : StoreOp) : Prop :=
  match op with
  | OpUpdateAgent _ updateData => updateData !! "id" = None
  | _ => True
  end.

(** Every stored agent record names its own key in its [id] property. *)
Definition ids_match_keys (st : MemStorage) : Prop :=
  Forall (λ kv, field kv.2 "id" = VNum kv.1) (agents st).

(** The store once a login has resolved its account: as it was when the
    username is known, with the new account otherwise. *)
Definition resolve_user (username password : string) (st : MemStorage) : MemStorage :=
  match getUserByUsername username st with
  | Some _ => st
  | None => (createUser {| iu_username := username; iu_password := password |} st).2
  end.

(** The store after a login that succeeded with the given tokens: the
    account resolved, and its session replaced. *)
Definition logged_in (username password : string) (accessToken refreshToken : JSVal)
    (expiresAt createdAt : Z) (st : MemStorage) : MemStorage :=
  (createSession
     {| is_userId := user_id (login_user username password st);
        is_accessToken := accessToken;
        is_refreshToken := refreshToken;
        is_expiresAt := expiresAt |}
     createdAt (resolve_user username password st)).2.

(** The answers of the handlers to a request that fails. *)
Definition not_authenticated : Res := json 401 (message "Not authenticated").

Definition validation_error : Res :=
  json 400 (VObj (obj [ ("message", VStr "Validation error") ])).

(** The two outcomes of a login: it fails, answers 400, 401 or 500 and
    leaves store, clock and cookies alone; or it succeeds, answers 200,
    sets the [auth_token] cookie to a truthy access token and leaves the
    store [logged_in] with that same token. *)
Definition login_outcome (req : Request) (env : Env) (w : World)
    (res : Res) (w' : World) : Prop :=
  (res_status res ∈ [400; 401; 500] ∧
   res_cookies res = [] ∧ store w' = store w ∧ ticks w' = ticks w) ∨
  (∃ (username password : string) (accessToken refreshToken : JSVal),
     loginSchema_parse (req_body req) = Some (username, password) ∧
     truthy accessToken = true ∧
     res_status res = 200 ∧
     res_cookies res = [ ("auth_token", accessToken, auth_cookie_options env) ] ∧
     store w'
     = logged_in username password accessToken (js_or refreshToken VNull)
         (plus_hours env (clock env (ticks w)) 24) (clock env (S (ticks w))) (store w)).

(** The record [POST /api/agents] hands to [createAgent]. *)
Definition created_record (agentData : jsobj) (externalId : string) : jsobj :=
  obj [ ("name", field agentData "name");
        ("description", field agentData "description");
        ("firstMessage", field agentData "firstMessage");
        ("createdBy", field agentData "createdBy");
        ("externalId", VStr externalId) ].

(** The two outcomes of [POST /api/agents] in [routes.ts]: it answers
    something other than 201 and leaves the store alone; or the upstream
    has acknowledged the create, the answer is 201 and the store has gone
    through one [createAgent] of the validated fields with the upstream id
    as [externalId]. *)
Definition create_outcome (schema : ZSchema) (req : Request) (env : Env) (w : World)
    (res : Res) (w' : World) : Prop :=
  (res_status res ≠ 201 ∧ store w' = store w) ∨
  (∃ (token : string) (agentData : jsobj) (data id : JSVal) (externalId : string),
     req_auth_token req = Some token ∧
     zobject_parse schema false (req_body req) = Some agentData ∧
     to_string id = Some externalId ∧
     res = json 201 (VObj (obj
             [ ("success", VBool true);
               ("agent",
                VObj (createAgent (created_record agentData externalId)
                        (clock env (ticks w)) (store w)).1);
               ("externalData", data) ])) ∧
     store w'
     = (createAgent (created_record agentData externalId)
          (clock env (ticks w)) (store w)).2 ∧
     outbound w' = outbound w ++ [Routes.create_request token agentData]).

(** The two outcomes of [PATCH /api/agents/:id] in [routes.ts]: it answers
    something other than 200 and leaves the store alone; or the record
    exists, the upstream has acknowledged the update sent to it, the
    answer is 200 and the store has gone through one [updateAgent]. *)
Definition update_outcome (schema : ZSchema) (req : Request) (env : Env) (w : World)
    (res : Res) (w' : World) : Prop :=
  (res_status res ≠ 200 ∧ store w' = store w) ∨
  (∃ (token : string) (id : Z) (existingAgent updateData : jsobj) (data : JSVal),
     req_auth_token req = Some token ∧
     parseInt env (req_params_id req) = Some id ∧
     getAgent id (store w) = Some existingAgent ∧
     zobject_parse schema true (req_body req) = Some updateData ∧
     res = json 200 (VObj (obj
             [ ("success", VBool true);
               ("agent", VObj (spread existingAgent updateData));
               ("externalData", data) ])) ∧
     store w' = (updateAgent id updateData (store w)).2 ∧
     outbound w'
     = outbound w ++ [Routes.update_request token id existingAgent updateData]).

(* ===================================================================== *)
(** ** Example inputs *)
(* ===================================================================== *)

(** Request bodies. *)
Definition demo_body : JSVal :=
  VObj (obj [ ("username", VStr "testuser"); ("password", VStr "password123") ]).

Definition quota_body : JSVal :=
  VObj (obj [ ("success", VBool false); ("error", VStr "quota exceeded") ]).

Definition agent_body : JSVal :=
  VObj (obj [ ("name", VStr "Helper"); ("description", VStr "Answers questions");
              ("firstMessage", VStr "Hi"); ("createdBy", VStr "admin") ]).

(** Upstream login bodies, already parsed: the token in the nested
    shape, in the flat shape, and in neither. *)
Definition nested_tokens : JSVal :=
  VObj (obj [ ("data", VObj (obj [ ("accessToken", VStr "tok-nested");
                                   ("refreshToken", VStr "ref-nested") ])) ]).

Definition flat_tokens : JSVal :=
  VObj (obj [ ("access_token", VStr "tok-flat"); ("refresh_token", VStr "ref-flat") ]).

Definition no_tokens : JSVal := VObj (obj [ ("status", VStr "ok") ]).

Definition login_body : JSVal :=
  VObj (obj [ ("username", VStr "alice"); ("password", VStr "secret") ]).

(** An environment for the examples: the clock reads [clock], the
    upstream answers every call with [answer], every response text parses
    to [parsed], and a route id parses to [id]. *)
Definition example_env (clock : nat → Z) (answer : FetchResult)
    (parsed : option JSVal) (id : option Z) : Env :=
  {| clock := clock;
     upstream := λ _, answer;
     JSON_parse := λ _, parsed;
     parseInt := λ _, id;
     plus_hours := λ d h, d + h * 3600000;
     CLIENT_ID := None;
     CLIENT_SECRET := None;
     NODE_ENV := None |}.

Definition example_response (status : Z) (statusText : string) : FetchResult :=
  Responded {| resp_status := status; resp_statusText := statusText;
               resp_text := "body" |}.

(** The world right after the server has started at time [0]. *)
Definition fresh_world : World :=
  {| store := constructor (λ _, 0); ticks := 0; outbound := [] |}.

Definition example_request (token : option string) (body : JSVal) : Request :=
  {| req_auth_token := token; req_body := body; req_params_id := "5" |}.

(* ===================================================================== *)
(** * Properties *)
(* ===================================================================== *)

(** ** JavaScript values *)

Lemma truthy_str (s : string) : s ≠ EmptyString → truthy (VStr s) = true.
Proof.
  intros Hs. simpl. destruct (String.eqb_spec s EmptyString); [contradiction | reflexivity].
Qed.

Lemma js_or_truthy (a b : JSVal) : truthy a = true → js_or a b = a.
Proof. unfold js_or. intros ->. reflexivity. Qed.

Lemma js_or_falsy (a b : JSVal) : truthy a = false → js_or a b = b.
Proof. unfold js_or. intros ->. reflexivity. Qed.

Lemma field_spread_l (a b : jsobj) (k : string) (v : JSVal) :
  b !! k = Some v → field (spread a b) k = v.
Proof.
  intros Hb. unfold field, spread.
  rewrite (lookup_union_Some_l b a k v Hb). reflexivity.
Qed.

Lemma field_spread_r (a b : jsobj) (k : string) :
  b !! k = None → field (spread a b) k = field a k.
Proof.
  intros Hb. unfold field, spread. rewrite lookup_union_r; auto.
Qed.

(** ** The insertion-ordered map *)

Section JSMapFacts.
Context {V : Type}.
Implicit Types (m : list (Z * V)) (k j : Z) (v : V).

Lemma map_get_None (k : Z) (m : list (Z * V)) :
  map_get k m = None ↔ k ∉ map_keys m.
Proof.
  induction m as [| [k' v'] m IH]; simpl.
  - split; [intros _; apply not_elem_of_nil | reflexivity].
  - rewrite not_elem_of_cons. destruct (decide (k = k')) as [-> | Hne].
    + split; [discriminate | intros [H _]; contradiction].
    + rewrite IH. tauto.
Qed.

Lemma map_get_set_eq (k : Z) (v : V) (m : list (Z * V)) :
  map_get k (map_set k v m) = Some v.
Proof.
  induction m as [| [k' v'] m IH]; simpl.
  - rewrite decide_True; auto.
  - destruct (decide (k = k')) as [-> | Hne]; simpl.
    + rewrite decide_True; auto.
    + rewrite decide_False; auto.
Qed.

Lemma map_get_set_ne (k j : Z) (v : V) (m : list (Z * V)) :
  j ≠ k → map_get j (map_set k v m) = map_get j m.
Proof.
  intros Hne. induction m as [| [k' v'] m IH]; simpl.
  - rewrite decide_False; auto.
  - destruct (decide (k = k')) as [-> | Hk]; simpl.
    + rewrite !decide_False; auto.
    + destruct (decide (j = k')); auto.
Qed.

Lemma map_set_fresh (k : Z) (v : V) (m : list (Z * V)) :
  k ∉ map_keys m → map_set k v m = m ++ [(k, v)].
Proof.
  induction m as [| [k' v'] m IH]; simpl; intros Hk; [reflexivity |].
  apply not_elem_of_cons in Hk as [Hne Hk].
  rewrite decide_False by exact Hne. rewrite IH; auto.
Qed.

Lemma map_keys_set_present (k : Z) (v : V) (m : list (Z * V)) :
  k ∈ map_keys m → map_keys (map_set k v m) = map_keys m.
Proof.
  unfold map_keys. induction m as [| [k' v'] m IH]; simpl; intros Hk.
  - apply elem_of_nil in Hk. contradiction.
  - destruct (decide (k = k')) as [-> | Hne]; simpl; [reflexivity |].
    apply elem_of_cons in Hk as [Hk | Hk]; [contradiction |].
    f_equal. apply IH. exact Hk.
Qed.

Lemma map_delete_absent (k : Z) (m : list (Z * V)) :
  k ∉ map_keys m → map_delete k m = m.
Proof.
  induction m as [| [k' v'] m IH]; simpl; intros Hk; [reflexivity |].
  apply not_elem_of_cons in Hk as [Hne Hk].
  rewrite decide_False by exact Hne. rewrite IH; auto.
Qed.

Lemma map_keys_delete (k : Z) (m : list (Z * V)) :
  map_keys (map_delete k m) = filter (λ j, j ≠ k) (map_keys m).
Proof.
  unfold map_keys. induction m as [| [k' v'] m IH]; simpl; [reflexivity |].
  rewrite filter_cons. simpl.
  destruct (decide (k = k')) as [-> | Hne].
  - rewrite decide_False by auto. exact IH.
  - rewrite decide_True by auto. simpl. f_equal. exact IH.
Qed.

Lemma map_get_delete_eq (k : Z) (m : list (Z * V)) :
  map_get k (map_delete k m) = None.
Proof.
  apply map_get_None. rewrite map_keys_delete.
  intros H. apply list_elem_of_filter in H as [H _]. contradiction.
Qed.

Lemma map_get_delete_ne (k j : Z) (m : list (Z * V)) :
  j ≠ k → map_get j (map_delete k m) = map_get j m.
Proof.
  intros Hne. induction m as [| [k' v'] m IH]; simpl; [reflexivity |].
  destruct (decide (k = k')) as [-> | Hk]; simpl.
  - rewrite decide_False by exact Hne. exact IH.
  - rewrite IH. reflexivity.
Qed.

(** Every key of the map appears once. *)
Lemma map_set_NoDup (k : Z) (v : V) (m : list (Z * V)) :
  NoDup (map_keys m) → NoDup (map_keys (map_set k v m)).
Proof.
  intros Hnd. destruct (decide (k ∈ map_keys m)) as [Hin | Hout].
  - rewrite map_keys_set_present; auto.
  - rewrite map_set_fresh by exact Hout. unfold map_keys in *.
    rewrite fmap_app. simpl. apply NoDup_app. split; [exact Hnd |].
    split; [| apply NoDup_singleton].
    intros x Hx Hx'. apply list_elem_of_singleton in Hx'. subst. contradiction.
Qed.

Lemma map_delete_NoDup (k : Z) (m : list (Z * V)) :
  NoDup (map_keys m) → NoDup (map_keys (map_delete k m)).
Proof.
  intros Hnd. rewrite map_keys_delete. apply NoDup_filter. exact Hnd.
Qed.

End JSMapFacts.

Section JSMapOrder.
Context {V : Type}.
Implicit Types (m : list (Z * V)) (k j : Z) (v : V).

Lemma map_set_Forall (P : Z * V → Prop) k v m :
  P (k, v) → Forall P m → Forall P (map_set k v m).
Proof.
  intros Hkv Hm. induction Hm as [| [k' v'] m Hx Hm IH]; simpl.
  - constructor; [exact Hkv | constructor].
  - destruct (decide (k = k')); constructor; auto.
Qed.

Lemma map_delete_Forall (P : Z * V → Prop) k m :
  Forall P m → Forall P (map_delete k m).
Proof.
  intros Hm. induction Hm as [| [k' v'] m Hx Hm IH]; simpl; [constructor |].
  destruct (decide (k = k')); [exact IH | constructor; auto].
Qed.

Lemma map_values_set_fresh k v m :
  k ∉ map_keys m → map_values (map_set k v m) = map_values m ++ [v].
Proof.
  intros Hk. rewrite map_set_fresh by exact Hk. unfold map_values.
  rewrite fmap_app. reflexivity.
Qed.

Lemma map_get_Some_key k v m : map_get k m = Some v → k ∈ map_keys m.
Proof.
  intros Hget. destruct (decide (k ∈ map_keys m)) as [Hin | Hout]; [exact Hin |].
  apply map_get_None in Hout. congruence.
Qed.

Lemma filter_keys_sorted (k : Z) (l : list Z) :
  StronglySorted Z.lt l → StronglySorted Z.lt (filter (λ j, j ≠ k) l).
Proof.
  induction 1 as [| x l Hl IH Hx]; [constructor |].
  rewrite filter_cons. destruct (decide (x ≠ k)); [| exact IH].
  constructor; [exact IH |].
  apply Forall_forall. intros y Hy. apply list_elem_of_filter in Hy as [_ Hy].
  rewrite Forall_forall in Hx. auto.
Qed.

End JSMapOrder.

(** ** The Local Record Store *)

Lemma constructor_keys (clock : nat → Z) :
  map_keys (agents (constructor clock)) = [1; 2; 3].
Proof. reflexivity. Qed.

Lemma constructor_counter (clock : nat → Z) :
  currentAgentId (constructor clock) = 4.
Proof. reflexivity. Qed.

Lemma constructor_ids (clock : nat → Z) :
  (λ a, field a "id") <$> getAgents (constructor clock) = [VNum 1; VNum 2; VNum 3].
Proof. vm_compute. reflexivity. Qed.

Lemma constructor_externalIds (clock : nat → Z) :
  (λ a, field a "externalId") <$> getAgents (constructor clock) = [VNull; VNull; VNull].
Proof. vm_compute. reflexivity. Qed.

Lemma createAgent_id (insertAgent : jsobj) (now : Z) (st : MemStorage) :
  field (createAgent insertAgent now st).1 "id" = VNum (currentAgentId st).
Proof.
  unfold createAgent. simpl. apply field_spread_l.
  unfold obj. simpl. apply lookup_insert_eq.
Qed.

Lemma constructor_agents_inv (clock : nat → Z) : agents_inv (constructor clock).
Proof.
  unfold agents_inv. rewrite constructor_keys, constructor_counter.
  split.
  - repeat (constructor; [| repeat constructor; lia]). constructor.
  - repeat constructor; lia.
Qed.

Lemma constructor_sessions_inv (clock : nat → Z) : sessions_inv (constructor clock).
Proof. split; [apply NoDup_nil_2 | constructor]. Qed.

Lemma counter_fresh (st : MemStorage) :
  agents_inv st → currentAgentId st ∉ map_keys (agents st).
Proof.
  intros [_ Hlt] Hin. rewrite Forall_forall in Hlt. specialize (Hlt _ Hin). lia.
Qed.

Lemma createAgent_agents_inv (insertAgent : jsobj) (now : Z) (st : MemStorage) :
  agents_inv st → agents_inv (createAgent insertAgent now st).2.
Proof.
  intros Hinv. pose proof (counter_fresh st Hinv) as Hfresh.
  destruct Hinv as [Hsorted Hlt]. unfold agents_inv, createAgent. simpl.
  rewrite map_set_fresh by exact Hfresh. unfold map_keys in *.
  rewrite fmap_app. simpl. split.
  - apply StronglySorted_app_2; [| exact Hsorted | repeat constructor].
    intros x1 x2 H1 H2. apply list_elem_of_singleton in H2 as ->.
    rewrite Forall_forall in Hlt. auto.
  - apply Forall_app. split.
    + eapply Forall_impl; [exact Hlt |]. simpl. intros; lia.
    + repeat constructor. lia.
Qed.

Lemma updateAgent_keys (id : Z) (updateData : jsobj) (st : MemStorage) :
  map_keys (agents (updateAgent id updateData st).2) = map_keys (agents st).
Proof.
  unfold updateAgent. destruct (map_get id (agents st)) as [a |] eqn:Hget; simpl.
  - apply map_keys_set_present. eapply map_get_Some_key. exact Hget.
  - reflexivity.
Qed.

Lemma updateAgent_counter (id : Z) (updateData : jsobj) (st : MemStorage) :
  currentAgentId (updateAgent id updateData st).2 = currentAgentId st.
Proof. unfold updateAgent. destruct (map_get id (agents st)); reflexivity. Qed.

Lemma deleteAgent_keys (id : Z) (st : MemStorage) :
  map_keys (agents (deleteAgent id st)) = filter (λ j, j ≠ id) (map_keys (agents st)).
Proof. apply map_keys_delete. Qed.

Lemma apply_op_agents_inv (op : StoreOp) (st : MemStorage) :
  agents_inv st → agents_inv (apply_op op st).
Proof.
  intros Hinv. destruct op as [iu | ins now | u | a now | id upd | id]; simpl;
    try exact Hinv.
  - apply createAgent_agents_inv. exact Hinv.
  - unfold agents_inv. rewrite updateAgent_keys, updateAgent_counter. exact Hinv.
  - destruct Hinv as [Hsorted Hlt]. unfold agents_inv.
    rewrite deleteAgent_keys. simpl. split.
    + apply filter_keys_sorted. exact Hsorted.
    + apply Forall_forall. intros k Hk. apply list_elem_of_filter in Hk as [_ Hk].
      rewrite Forall_forall in Hlt. auto.
Qed.

Lemma apply_op_sessions_inv (op : StoreOp) (st : MemStorage) :
  sessions_inv st → sessions_inv (apply_op op st).
Proof.
  intros Hinv. destruct op as [iu | ins now | u | a now | id upd | id]; simpl;
    try exact Hinv.
  - destruct Hinv as [Hnd Hkey]. split; simpl.
    + apply map_set_NoDup. exact Hnd.
    + apply map_set_Forall; [reflexivity | exact Hkey].
  - destruct Hinv as [Hnd Hkey]. split; simpl.
    + apply map_delete_NoDup. exact Hnd.
    + apply map_delete_Forall. exact Hkey.
  - unfold sessions_inv, updateAgent.
    destruct (map_get id (agents st)); exact Hinv.
Qed.

Lemma run_ops_inv (P : MemStorage → Prop) (ops : list StoreOp) (st : MemStorage) :
  (∀ op s, P s → P (apply_op op s)) → P st → P (run_ops ops st).
Proof.
  intros Hstep. revert st. unfold run_ops.
  induction ops as [| op ops IH]; simpl; intros st Hst; [exact Hst |].
  apply IH. apply Hstep. exact Hst.
Qed.

Lemma reachable_agents_inv (clock : nat → Z) (ops : list StoreOp) :
  agents_inv (run_ops ops (constructor clock)).
Proof.
  apply run_ops_inv; [apply apply_op_agents_inv | apply constructor_agents_inv].
Qed.

Lemma reachable_sessions_inv (clock : nat → Z) (ops : list StoreOp) :
  sessions_inv (run_ops ops (constructor clock)).
Proof.
  apply run_ops_inv; [apply apply_op_sessions_inv | apply constructor_sessions_inv].
Qed.

(** The sessions filed under other keys do not belong to [u]. *)
Lemma sessions_other_keys (u : Z) (m : list (Z * Session)) :
  Forall (λ kv, session_userId kv.2 = kv.1) m → u ∉ map_keys m →
  filter (λ s, session_userId s = u) (map_values m) = [].
Proof.
  unfold map_keys, map_values.
  induction 1 as [| [k s] m Hk Hm IH]; simpl; intros Hu; [reflexivity |].
  apply not_elem_of_cons in Hu as [Hne Hu]. simpl in Hk.
  rewrite filter_cons. simpl. rewrite decide_False by congruence. auto.
Qed.

Lemma sessions_of_lookup (u : Z) (m : list (Z * Session)) :
  NoDup (map_keys m) → Forall (λ kv, session_userId kv.2 = kv.1) m →
  filter (λ s, session_userId s = u) (map_values m) = option_list (map_get u m).
Proof.
  unfold map_keys, map_values.
  induction m as [| [k s] m IH]; simpl; intros Hnd Hkey; [reflexivity |].
  apply NoDup_cons in Hnd as [Hk Hnd]. apply Forall_cons in Hkey as [Hs Hkey].
  simpl in Hs. rewrite filter_cons. simpl.
  destruct (decide (u = k)) as [-> | Hne].
  - rewrite decide_True by exact Hs. simpl. f_equal.
    apply sessions_other_keys; assumption.
  - rewrite decide_False by congruence. apply IH; assumption.
Qed.

Lemma createSession_sessions_inv (ins : InsertSession) (now : Z) (st : MemStorage) :
  sessions_inv st → sessions_inv (createSession ins now st).2.
Proof. apply (apply_op_sessions_inv (OpCreateSession ins now)). Qed.

Lemma createAgent_appends (insertAgent : jsobj) (now : Z) (st : MemStorage) :
  agents_inv st →
  getAgents (createAgent insertAgent now st).2
  = getAgents st ++ [(createAgent insertAgent now st).1].
Proof.
  intros Hinv. unfold getAgents, createAgent. simpl.
  apply map_values_set_fresh. apply counter_fresh. exact Hinv.
Qed.

Lemma updateAgent_absent (id : Z) (updateData : jsobj) (st : MemStorage) :
  getAgent id st = None → updateAgent id updateData st = (None, st).
Proof. unfold getAgent, updateAgent. intros ->. reflexivity. Qed.

(** C5: after any sequence of store operations on a fresh store a user has
    at most one stored session, and after two consecutive [createSession]
    calls for the same user exactly one session is stored for that user,
    the one returned by the second call, holding its access token. *)
Theorem one_session_per_user (clock : nat → Z) (ops : list StoreOp) (u : Z) :
  let st := run_ops ops (constructor clock) in
  (length (sessions_of u st) ≤ 1)%nat ∧
  ∀ (t1 r1 : JSVal) (e1 now1 : Z) (t2 r2 : JSVal) (e2 now2 : Z),
    let first := {| is_userId := u; is_accessToken := t1;
                    is_refreshToken := r1; is_expiresAt := e1 |} in
    let second := {| is_userId := u; is_accessToken := t2;
                     is_refreshToken := r2; is_expiresAt := e2 |} in
    let st1 := (createSession first now1 st).2 in
    let s2 := (createSession second now2 st1).1 in
    let st2 := (createSession second now2 st1).2 in
    sessions_of u st2 = [s2] ∧
    getSession u st2 = Some s2 ∧
    session_accessToken s2 = t2.
Proof.
  intros st. pose proof (reachable_sessions_inv clock ops) as Hinv. fold st in Hinv.
  split.
  - destruct Hinv as [Hnd Hkey]. unfold sessions_of.
    rewrite sessions_of_lookup by assumption.
    destruct (map_get u (sessions st)); simpl; lia.
  - intros t1 r1 e1 now1 t2 r2 e2 now2 first second st1 s2 st2.
    assert (Hinv2 : sessions_inv st2).
    { apply createSession_sessions_inv, createSession_sessions_inv. exact Hinv. }
    assert (Hget : getSession u st2 = Some s2).
    { unfold getSession, st2, createSession. simpl. apply map_get_set_eq. }
    destruct Hinv2 as [Hnd Hkey]. unfold sessions_of.
    rewrite sessions_of_lookup by assumption.
    unfold getSession in Hget. rewrite Hget. auto.
Qed.

(** C6: on a stored record, [updateAgent(id, {description: d})] returns a
    record whose [description] is [d] and whose other properties, [name],
    [firstMessage], [createdBy] and [externalId] among them, are those of
    the record stored before; that record is what the store holds under
    [id] afterwards. *)
Theorem update_description_only (st : MemStorage) (id : Z) (existing : Agent) (d : string) :
  getAgent id st = Some existing →
  let result := updateAgent id (obj [ ("description", VStr d) ]) st in
  ∃ updated : Agent,
    result.1 = Some updated ∧
    field updated "description" = VStr d ∧
    field updated "name" = field existing "name" ∧
    field updated "firstMessage" = field existing "firstMessage" ∧
    field updated "createdBy" = field existing "createdBy" ∧
    field updated "externalId" = field existing "externalId" ∧
    (∀ k : string, k ≠ "description" → field updated k = field existing k) ∧
    getAgent id result.2 = Some updated.
Proof.
  intros Hget result. unfold getAgent in Hget.
  assert (Hother : ∀ k : string, k ≠ "description" →
            field (spread existing (obj [ ("description", VStr d) ])) k = field existing k).
  { intros k Hk. apply field_spread_r. unfold obj. simpl.
    rewrite lookup_insert_ne by congruence. apply lookup_empty. }
  exists (spread existing (obj [ ("description", VStr d) ])).
  unfold result, updateAgent. rewrite Hget. simpl.
  split; [reflexivity |].
  split; [apply field_spread_l; unfold obj; simpl; apply lookup_insert_eq |].
  do 4 (split; [apply Hother; discriminate |]).
  split; [exact Hother |].
  unfold getAgent. simpl. apply map_get_set_eq.
Qed.

Lemma update_description_only_witness :
  ∃ updated : Agent,
    (updateAgent 1 (obj [ ("description", VStr "new") ]) (constructor (λ _, 0))).1
      = Some updated ∧
    field updated "description" = VStr "new" ∧
    field updated "externalId" = VNull.
Proof.
  destruct (update_description_only (constructor (λ _, 0)) 1
              (spread (obj [ ("prompt", VStr "Customer Support Agent");
                             ("description",
                              VStr "Handles customer inquiries and support tickets");
                             ("first_message",
                              VStr "Hello! I'm here to help you with any questions or issues you may have.");
                             ("created_by", VStr "admin") ])
                      (obj [ ("id", VNum 1); ("externalId", VNull); ("created_at", VDate 0) ]))
              "new" eq_refl)
    as (updated & Hres & Hdesc & _ & _ & _ & Hext & _).
  exists updated. split; [exact Hres |]. split; [exact Hdesc |].
  rewrite Hext. reflexivity.
Defined.

(** C10: a freshly constructed store holds exactly three demo agents,
    with ids 1, 2 and 3 and [externalId] null, so [getAgents] has length 3
    before any [createAgent], and the first [createAgent] returns a
    record with id 4. *)
Theorem fresh_store_is_seeded (clock : nat → Z) :
  let st := constructor clock in
  map_keys (agents st) = [1; 2; 3] ∧
  (λ a, field a "id") <$> getAgents st = [VNum 1; VNum 2; VNum 3] ∧
  (λ a, field a "externalId") <$> getAgents st = [VNull; VNull; VNull] ∧
  length (getAgents st) = 3%nat ∧
  ∀ (insertAgent : jsobj) (now : Z),
    field (createAgent insertAgent now st).1 "id" = VNum 4 ∧
    map_keys (agents (createAgent insertAgent now st).2) = [1; 2; 3; 4].
Proof.
  intros st. split; [apply constructor_keys |].
  split; [apply constructor_ids |].
  split; [apply constructor_externalIds |].
  split; [reflexivity |].
  intros insertAgent now. split.
  - rewrite createAgent_id. reflexivity.
  - reflexivity.
Qed.

(** C7, the claim as stated fails: on a freshly constructed store the
    list after [createAgent(A)], [createAgent(B)], [deleteAgent(A.id)] is
    not the one-element list of B's record. *)
Lemma list_after_delete_is_not_singleton :
  let st0 := constructor (λ _, 0) in
  let a := (createAgent (obj [ ("name", VStr "A") ]) 0 st0).1 in
  let st1 := (createAgent (obj [ ("name", VStr "A") ]) 0 st0).2 in
  let b := (createAgent (obj [ ("name", VStr "B") ]) 0 st1).1 in
  let st2 := (createAgent (obj [ ("name", VStr "B") ]) 0 st1).2 in
  field a "id" = VNum 4 ∧ getAgents (deleteAgent 4 st2) ≠ [b].
Proof.
  split; [vm_compute; reflexivity |].
  intros H. apply (f_equal length) in H. vm_compute in H. discriminate.
Qed.

(** C7, amended: on a freshly constructed store, which already holds the
    three demo agents, [createAgent(A)], [createAgent(B)],
    [deleteAgent(A.id)] leaves the three demo records followed by B's
    record; on a store whose agent map is empty the same sequence leaves
    exactly B's record.  After any sequence of operations the list is in
    insertion order: the keys are the ids in increasing order of
    creation, [createAgent] appends at the end, [updateAgent] keeps every
    position and [deleteAgent] only removes its key. *)
Theorem list_after_create_create_delete
    (clock : nat → Z) (A B : jsobj) (nowA nowB : Z) :
  (let st0 := constructor clock in
   let a := (createAgent A nowA st0).1 in
   let st1 := (createAgent A nowA st0).2 in
   let b := (createAgent B nowB st1).1 in
   let st2 := (createAgent B nowB st1).2 in
   field a "id" = VNum 4 ∧
   length (getAgents st0) = 3%nat ∧
   getAgents (deleteAgent 4 st2) = getAgents st0 ++ [b]) ∧
  (∀ (st : MemStorage) (n : Z),
     let st0 := with_agents st [] n in
     let a := (createAgent A nowA st0).1 in
     let st1 := (createAgent A nowA st0).2 in
     let b := (createAgent B nowB st1).1 in
     let st2 := (createAgent B nowB st1).2 in
     field a "id" = VNum n ∧
     getAgents (deleteAgent n st2) = [b]) ∧
  (∀ ops : list StoreOp,
     let st := run_ops ops (constructor clock) in
     StronglySorted Z.lt (map_keys (agents st)) ∧
     (∀ (X : jsobj) (now : Z),
        getAgents (createAgent X now st).2 = getAgents st ++ [(createAgent X now st).1]) ∧
     (∀ (id : Z) (upd : jsobj),
        map_keys (agents (updateAgent id upd st).2) = map_keys (agents st)) ∧
     (∀ id : Z,
        map_keys (agents (deleteAgent id st)) = filter (λ j, j ≠ id) (map_keys (agents st)))).
Proof.
  split; [| split].
  - intros st0 a st1 b st2.
    split; [apply createAgent_id |]. split; reflexivity.
  - intros st n st0 a st1 b st2.
    split; [apply createAgent_id |].
    unfold getAgents, deleteAgent, st2, st1, createAgent, st0. simpl.
    rewrite decide_False by lia. simpl.
    rewrite decide_True by reflexivity. rewrite decide_False by lia. reflexivity.
  - intros ops st. pose proof (reachable_agents_inv clock ops) as Hinv. fold st in Hinv.
    split; [apply Hinv |].
    split; [intros X now; apply createAgent_appends; exact Hinv |].
    split; [intros id upd; apply updateAgent_keys |].
    intros id. apply deleteAgent_keys.
Qed.

(** ** The route handlers *)

Ltac run_handler :=
  repeat progress
    (unfold handle, bind, ret, throw, or_throw, ask, try_catch, fetch, date_now,
       response_json, storage_getAgent, storage_updateAgent, storage_deleteAgent,
       storage_createAgent, storage_createSession, storage_read, storage_run;
     simpl).

(** C9: with any non-empty [auth_token] cookie, [GET /api/auth/me]
    answers 200 [{authenticated: true}]; the answer is the same in any two
    states of the store and of the environment, the store is left as it
    was and no outbound call is issued. *)
Theorem me_accepts_any_token (req : Request) (token : string)
    (env1 env2 : Env) (w1 w2 : World) :
  req_auth_token req = Some token →
  token ≠ EmptyString →
  Routes.get_me req env1 w1
    = (json 200 (VObj (obj [ ("authenticated", VBool true) ])), w1) ∧
  (Routes.get_me req env1 w1).1 = (Routes.get_me req env2 w2).1.
Proof.
  intros Htok Hne.
  assert (Hno : no_token (req_auth_token req) = false).
  { rewrite Htok. simpl. destruct (String.eqb_spec token EmptyString); congruence. }
  unfold Routes.get_me. run_handler. rewrite Hno. simpl. split; reflexivity.
Qed.

Lemma me_accepts_any_token_witness :
  res_status
    (Routes.get_me (example_request (Some "never-issued") VUndefined)
       (example_env (λ _, 0) NetworkError None None) fresh_world).1 = 200.
Proof.
  destruct (me_accepts_any_token (example_request (Some "never-issued") VUndefined)
              "never-issued"
              (example_env (λ _, 0) NetworkError None None)
              (example_env (λ _, 0) NetworkError None None)
              fresh_world fresh_world eq_refl) as [H _].
  - discriminate.
  - rewrite H. reflexivity.
Defined.

Lemma no_token_false (token : option string) :
  no_token token = false ↔ ∃ t, token = Some t ∧ t ≠ EmptyString.
Proof.
  destruct token as [t |]; simpl.
  - destruct (String.eqb_spec t EmptyString) as [-> | Hne].
    + split; [discriminate | intros (t' & Ht & Hne); congruence].
    + split; [intros _; eauto | reflexivity].
  - split; [discriminate | intros (t & Ht & _); discriminate].
Qed.

Lemma storage_lookup_absent (agentId : option Z) (st : MemStorage) :
  absent_id agentId st →
  match agentId with Some id => getAgent id st | None => None end = None.
Proof. destruct agentId; simpl; auto. Qed.

(** C4: for an agent id that is not in the store, [updateAgent] returns
    absent and leaves the store as it is; the update handler (the [PATCH]
    route, and the [PUT] route of the draft) issues no outbound call and
    leaves the store as it is whatever the request, and answers 404 to a
    request that carries a token and a body that passes validation. *)
Theorem update_of_absent_agent (schema : ZSchema) (req : Request)
    (env : Env) (w : World) :
  absent_id (parseInt env (req_params_id req)) (store w) →
  (∀ (id : Z) (partialFields : jsobj),
     getAgent id (store w) = None →
     updateAgent id partialFields (store w) = (None, store w)) ∧
  (Routes.patch_agent schema req env w).2 = w ∧
  (Draft.put_agent schema req env w).2 = w ∧
  (∀ updateData : jsobj,
     no_token (req_auth_token req) = false →
     zobject_parse schema true (req_body req) = Some updateData →
     (Routes.patch_agent schema req env w).1 = json 404 (message "Agent not found") ∧
     (Draft.put_agent schema req env w).1 = json 404 (message "Agent not found")).
Proof.
  intros Habsent.
  split; [intros id partialFields; apply updateAgent_absent |].
  pose proof (storage_lookup_absent _ _ Habsent) as Hget.
  assert (Hupd : ∀ updateData : jsobj,
            match parseInt env (req_params_id req) with
            | Some id => updateAgent id updateData (store w)
            | None => (None, store w)
            end = (None, store w)).
  { intros updateData. destruct (parseInt env (req_params_id req)) as [id |];
      [apply updateAgent_absent; exact Habsent | reflexivity]. }
  split; [| split].
  - unfold Routes.patch_agent. run_handler.
    destruct (no_token (req_auth_token req)); [reflexivity |].
    destruct (zobject_parse schema true (req_body req)); simpl; [| reflexivity].
    rewrite Hget. reflexivity.
  - unfold Draft.put_agent. run_handler.
    destruct (no_token (req_auth_token req)); [reflexivity |].
    destruct (zobject_parse schema true (req_body req)) as [updateData |]; simpl;
      [| reflexivity].
    rewrite Hupd. destruct w; reflexivity.
  - intros updateData Htok Hbody. split.
    + unfold Routes.patch_agent. run_handler. rewrite Htok, Hbody. simpl.
      rewrite Hget. reflexivity.
    + unfold Draft.put_agent. run_handler. rewrite Htok, Hbody. simpl.
      rewrite Hupd. reflexivity.
Qed.

Lemma update_of_absent_agent_witness :
  let result :=
    Routes.patch_agent insertAgentSchema_v0
      (example_request (Some "token") (VObj (obj [ ("description", VStr "new") ])))
      (example_env (λ _, 0) NetworkError None (Some 5)) fresh_world in
  res_status result.1 = 404 ∧ result.2 = fresh_world.
Proof.
  destruct (update_of_absent_agent insertAgentSchema_v0
              (example_request (Some "token") (VObj (obj [ ("description", VStr "new") ])))
              (example_env (λ _, 0) NetworkError None (Some 5)) fresh_world)
    as (_ & Hworld & _ & Hnotfound).
  - reflexivity.
  - split; [| exact Hworld].
    edestruct Hnotfound as [H _]; [reflexivity | reflexivity |].
    rewrite H. reflexivity.
Defined.

(** C3: when the upstream create call answers 2xx with a body that parses
    to an object whose [success] is [false] and whose [error] is
    ["quota exceeded"], [POST /api/agents] answers 400 with the message
    ["quota exceeded"], and the store is left as it was: no agent record
    is created. *)
Theorem create_rejected_by_upstream (schema : ZSchema) (req : Request)
    (env : Env) (w : World) (token : string) (agentData : jsobj)
    (r : Response) (apiResult : jsobj) :
  req_auth_token req = Some token →
  token ≠ EmptyString →
  zobject_parse schema false (req_body req) = Some agentData →
  upstream env (Routes.create_request token agentData) = Responded r →
  resp_ok r = true →
  JSON_parse env (resp_text r) = Some (VObj apiResult) →
  apiResult !! "success" = Some (VBool false) →
  apiResult !! "error" = Some (VStr "quota exceeded") →
  let result := Routes.post_agents schema req env w in
  result.1 = json 400 (message "quota exceeded") ∧
  store result.2 = store w ∧
  getAgents (store result.2) = getAgents (store w) ∧
  outbound result.2 = outbound w ++ [Routes.create_request token agentData].
Proof.
  intros Htok Hne Hbody Hup Hok Hparse Hsuccess Herror result.
  assert (Hno : no_token (req_auth_token req) = false).
  { apply no_token_false. eauto. }
  unfold result, Routes.post_agents. run_handler.
  rewrite Hno, Hbody, Htok. simpl. rewrite Hup, Hok. run_handler.
  rewrite Hparse. simpl. unfold field. rewrite Hsuccess, Herror. simpl.
  auto.
Qed.

Lemma create_rejected_by_upstream_witness :
  let result :=
    Routes.post_agents insertAgentSchema_v0
      (example_request (Some "token") agent_body)
      (example_env (λ _, 0) (example_response 200 "OK") (Some quota_body) None)
      fresh_world in
  res_status result.1 = 400 ∧ length (getAgents (store result.2)) = 3%nat.
Proof.
  edestruct (create_rejected_by_upstream insertAgentSchema_v0
               (example_request (Some "token") agent_body)
               (example_env (λ _, 0) (example_response 200 "OK") (Some quota_body) None)
               fresh_world "token")
    as (Hres & _ & Hagents & _).
  - reflexivity.
  - discriminate.
  - reflexivity.
  - reflexivity.
  - reflexivity.
  - reflexivity.
  - reflexivity.
  - reflexivity.
  - simpl. rewrite Hres, Hagents. split; reflexivity.
Defined.

(** C2, the claim as stated fails: in [routes.ts] a failing upstream list
    call is answered with the upstream status, or with 500 on a transport
    error, not with 200. *)
Lemma list_agents_forwards_failure :
  let req := example_request (Some "token") VUndefined in
  res_status (Routes.get_agents req
                (example_env (λ _, 0) (example_response 503 "Service Unavailable") None None)
                fresh_world).1 = 503 ∧
  res_status (Routes.get_agents req
                (example_env (λ _, 0) NetworkError None None) fresh_world).1 = 500 ∧
  ¬ (res_status (Routes.get_agents req
                   (example_env (λ _, 0) (example_response 503 "Service Unavailable") None None)
                   fresh_world).1 = 200).
Proof. repeat split. discriminate. Qed.

(** C2, amended: for a request with a non-empty token whose upstream list
    call fails, the handler of [routes.ts] answers with the upstream
    status and the message "Failed to fetch agents from API" when the
    response is not 2xx, and with 500 when the transport fails, leaving
    the store unread; the draft of the handler answers 200 with the agent
    list of the local store. *)
Theorem list_agents_on_upstream_failure (req : Request) (env : Env) (w : World)
    (token : string) :
  req_auth_token req = Some token →
  token ≠ EmptyString →
  (∀ r : Response,
     upstream env (Routes.list_request token) = Responded r →
     resp_ok r = false →
     Routes.get_agents req env w
       = (json (resp_status r) (message "Failed to fetch agents from API"),
          sent (Routes.list_request token) w)) ∧
  (upstream env (Routes.list_request token) = NetworkError →
   Routes.get_agents req env w
     = (json 500 (message "Error connecting to agent API"),
        sent (Routes.list_request token) w)) ∧
  (upstream_fails env (Routes.list_request token) →
   (Draft.get_agents_draft req env w).1
     = json 200 (VArr (VObj <$> getAgents (store w))) ∧
   store (Draft.get_agents_draft req env w).2 = store w).
Proof.
  intros Htok Hne.
  assert (Hno : no_token (req_auth_token req) = false).
  { apply no_token_false. eauto. }
  split; [| split].
  - intros r Hup Hok. unfold Routes.get_agents. run_handler.
    rewrite Hno, Htok. simpl. rewrite Hup, Hok. reflexivity.
  - intros Hup. unfold Routes.get_agents. run_handler.
    rewrite Hno, Htok. simpl. rewrite Hup. reflexivity.
  - intros Hfail. unfold Draft.get_agents_draft. run_handler.
    rewrite Hno, Htok. simpl.
    destruct (String.prefix "demo_token_" token); [split; reflexivity |].
    destruct Hfail as [Hup | (r & Hup & Hok)]; rewrite Hup; simpl.
    + split; reflexivity.
    + rewrite Hok. simpl. split; reflexivity.
Qed.

Lemma list_agents_on_upstream_failure_witness :
  let req := example_request (Some "token") VUndefined in
  let env := example_env (λ _, 0) (example_response 503 "Service Unavailable") None None in
  res_status (Routes.get_agents req env fresh_world).1 = 503 ∧
  res_status (Draft.get_agents_draft req env fresh_world).1 = 200.
Proof.
  destruct (list_agents_on_upstream_failure
              (example_request (Some "token") VUndefined)
              (example_env (λ _, 0) (example_response 503 "Service Unavailable") None None)
              fresh_world "token" eq_refl)
    as (Hroutes & _ & Hdraft).
  - discriminate.
  - split.
    + rewrite (Hroutes _ eq_refl eq_refl). reflexivity.
    + destruct Hdraft as [Hres _].
      * right. eexists. split; reflexivity.
      * rewrite Hres. reflexivity.
Defined.

Lemma establish_session_outbound (username password : string)
    (accessToken refreshToken : JSVal) (env : Env) (w : World) :
  outbound (Routes.establish_session username password accessToken refreshToken env w).2
  = outbound w.
Proof.
  unfold Routes.establish_session. run_handler.
  destruct (getUserByUsername username (store w)); reflexivity.
Qed.

(** The login of [routes.ts] sends every valid pair upstream. *)
Lemma routes_login_calls_upstream (req : Request) (env : Env) (w : World)
    (username password : string) :
  loginSchema_parse (req_body req) = Some (username, password) →
  outbound (Routes.post_login req env w).2
  = outbound w ++ [Routes.login_request env username password].
Proof.
  intros Hbody. unfold Routes.post_login, handle, bind at 1.
  rewrite Hbody. unfold or_throw at 1, ret at 1, bind at 1, ask at 1, bind at 1, fetch.
  destruct (upstream env (Routes.login_request env username password)) as [| r];
    [reflexivity |].
  destruct (resp_ok r); simpl; [| reflexivity].
  destruct (JSON_parse env (resp_text r)) as [authData |]; [| reflexivity].
  unfold bind at 1.
  destruct (get_prop authData "data") as [data |]; [| reflexivity].
  unfold or_throw at 1, ret at 1, bind at 1.
  destruct (get_prop authData "access_token") as [flat |]; [| reflexivity].
  unfold or_throw at 1, ret at 1, bind at 1.
  destruct (get_prop authData "refresh_token") as [rflat |]; [| reflexivity].
  unfold or_throw at 1, ret at 1.
  destruct (truthy (js_or (opt_chain data "accessToken") flat)); simpl; [| reflexivity].
  match goal with
  | |- outbound (let (_, _) := ?m ?e ?w0 in _).2 = _ =>
      pose proof (establish_session_outbound username password
                    (js_or (opt_chain data "accessToken") flat)
                    (js_or (opt_chain data "refreshToken") rflat) e w0) as Hout;
      destruct (m e w0) as [[ex | res] w1]
  end; simpl in *; exact Hout.
Qed.

(** C1, the claim as stated fails: the login of [routes.ts] has no demo
    branch; the demo pair is sent upstream like any other, and the answer
    is the upstream's. *)
Lemma demo_pair_goes_upstream :
  let result :=
    Routes.post_login (example_request None demo_body)
      (example_env (λ _, 0) (example_response 401 "Unauthorized") None None)
      fresh_world in
  res_status result.1 = 401 ∧
  length (outbound result.2) = 1%nat ∧
  ¬ (res_status result.1 = 200 ∧ outbound result.2 = []).
Proof.
  split; [reflexivity |]. split; [reflexivity |].
  intros [H _]. vm_compute in H. discriminate.
Qed.

(** C1, amended: a login with the demo pair is sent upstream by the
    handler of [routes.ts], which has no demo branch.  In the draft of the
    handler it succeeds (200, [success: true]) without any outbound call;
    a session is stored for the account and the [auth_token] cookie is
    set, each with a token that is ["demo_token_"] followed by the epoch
    milliseconds of a clock reading taken during the request. *)
Theorem demo_login (req : Request) (env : Env) (w : World) :
  loginSchema_parse (req_body req) = Some ("testuser", "password123") →
  outbound (Routes.post_login req env w).2
    = outbound w ++ [Routes.login_request env "testuser" "password123"] ∧
  let result := Draft.post_login_draft req env w in
  let user := login_user "testuser" "password123" (store w) in
  res_status result.1 = 200 ∧
  res_body result.1
    = VObj (obj [ ("success", VBool true);
                  ("message", VStr "Login successful");
                  ("user", VObj (obj [ ("id", VNum (user_id user));
                                       ("username", VStr (user_username user)) ])) ]) ∧
  outbound result.2 = outbound w ∧
  ∃ (s : Session) (n m : nat),
    (ticks w ≤ n < ticks result.2)%nat ∧
    (ticks w ≤ m < ticks result.2)%nat ∧
    getSession (user_id user) (store result.2) = Some s ∧
    session_userId s = user_id user ∧
    session_accessToken s = VStr ("demo_token_" +:+ num_to_string (clock env n)) ∧
    res_cookies result.1
      = [ ("auth_token", VStr ("demo_token_" +:+ num_to_string (clock env m)),
           auth_cookie_options env) ].
Proof.
  intros Hbody. split; [apply routes_login_calls_upstream; exact Hbody |].
  unfold Draft.post_login_draft, login_user. run_handler. rewrite Hbody. simpl.
  destruct (getUserByUsername "testuser" (store w)) as [user |]; simpl.
  - do 3 (split; [reflexivity |]).
    eexists. exists (S (ticks w)), (S (S (S (ticks w)))).
    split; [lia |]. split; [lia |].
    split; [unfold getSession; simpl; apply map_get_set_eq |].
    repeat split.
  - do 3 (split; [reflexivity |]).
    eexists. exists (S (ticks w)), (S (S (S (ticks w)))).
    split; [lia |]. split; [lia |].
    split; [unfold getSession; simpl; apply map_get_set_eq |].
    repeat split.
Qed.

Lemma demo_login_witness :
  let result :=
    Draft.post_login_draft (example_request None demo_body)
      (example_env (λ _, 1718000000000) NetworkError None None)
      fresh_world in
  res_status result.1 = 200 ∧
  outbound result.2 = [] ∧
  (res_cookies result.1).*1 = [ ("auth_token", VStr "demo_token_1718000000000") ].
Proof.
  destruct (demo_login (example_request None demo_body)
              (example_env (λ _, 1718000000000) NetworkError None None)
              fresh_world eq_refl)
    as (_ & Hstatus & _ & Hout & s & n & m & _ & _ & _ & _ & _ & Hcookie).
  split; [exact Hstatus |]. split; [exact Hout |].
  rewrite Hcookie. vm_compute. reflexivity.
Defined.

(** In the draft the two tokens of a demo login come from two readings of
    the clock: when it advances in between, the session and the cookie
    hold different strings. *)
Example demo_tokens_of_a_ticking_clock :
  let result :=
    Draft.post_login_draft (example_request None demo_body)
      (example_env (λ n, 1718000000000 + Z.of_nat n) NetworkError None None)
      fresh_world in
  session_accessToken <$> getSession 1 (store result.2)
    = Some (VStr "demo_token_1718000000001") ∧
  (res_cookies result.1).*1.*2 = [ VStr "demo_token_1718000000003" ].
Proof. vm_compute. split; reflexivity. Qed.

Lemma js_or_null_idem (a : JSVal) : js_or (js_or a VNull) VNull = js_or a VNull.
Proof. unfold js_or. destruct (truthy a) eqn:Ha; [rewrite Ha |]; reflexivity. Qed.

Lemma js_or_falsy_both (a b : JSVal) :
  truthy (js_or a b) = false → truthy a = false ∧ truthy b = false.
Proof.
  unfold js_or. destruct (truthy a) eqn:Ha; intros H; [congruence | auto].
Qed.

(** C8: on a 2xx upstream login response whose body parses to an object,
    the access token is taken from [data.accessToken] when that is
    present, else from [access_token] (and the refresh token likewise
    from [data.refreshToken], else [refresh_token]).  A token found at
    either place is accepted: the login answers 200, carries the token in
    the [auth_token] cookie and stores it in the session.  When neither
    place yields a token the login answers 401 "No access token
    received" and the store is untouched; a 401 is never answered
    otherwise. *)
Theorem login_token_locations (req : Request) (env : Env) (w : World)
    (username password : string) (r : Response) (authData : jsobj) :
  loginSchema_parse (req_body req) = Some (username, password) →
  upstream env (Routes.login_request env username password) = Responded r →
  resp_ok r = true →
  JSON_parse env (resp_text r) = Some (VObj authData) →
  let nested := opt_chain (field authData "data") "accessToken" in
  let flat := field authData "access_token" in
  let accessToken := js_or nested flat in
  let refreshToken :=
    js_or (opt_chain (field authData "data") "refreshToken")
          (field authData "refresh_token") in
  let result := Routes.post_login req env w in
  let user := login_user username password (store w) in
  (truthy nested = true → accessToken = nested) ∧
  (truthy nested = false → accessToken = flat) ∧
  (truthy accessToken = true →
     res_status result.1 = 200 ∧
     res_cookies result.1 = [ ("auth_token", accessToken, auth_cookie_options env) ] ∧
     ∃ s : Session,
       getSession (user_id user) (store result.2) = Some s ∧
       session_accessToken s = accessToken ∧
       session_refreshToken s = js_or refreshToken VNull) ∧
  (truthy accessToken = false →
     result.1 = json 401 (message "Authentication failed. No access token received.") ∧
     store result.2 = store w) ∧
  (res_status result.1 = 401 → truthy nested = false ∧ truthy flat = false).
Proof.
  intros Hbody Hup Hok Hparse nested flat accessToken refreshToken result user.
  split; [apply js_or_truthy |]. split; [apply js_or_falsy |].
  assert (Haccept : truthy accessToken = true →
            res_status result.1 = 200 ∧
            res_cookies result.1 = [ ("auth_token", accessToken, auth_cookie_options env) ] ∧
            ∃ s : Session,
              getSession (user_id user) (store result.2) = Some s ∧
              session_accessToken s = accessToken ∧
              session_refreshToken s = js_or refreshToken VNull).
  { intros Htruthy. unfold result, Routes.post_login. run_handler.
    rewrite Hbody. simpl. rewrite Hup, Hok. simpl. rewrite Hparse. simpl.
    fold nested flat accessToken. rewrite Htruthy. simpl.
    unfold Routes.establish_session, user, login_user. run_handler.
    destruct (getUserByUsername username (store w)) as [u |]; simpl.
    - split; [reflexivity |]. split; [reflexivity |].
      eexists. split; [unfold getSession; simpl; apply map_get_set_eq |].
      split; [reflexivity |]. simpl. apply js_or_null_idem.
    - split; [reflexivity |]. split; [reflexivity |].
      eexists. split; [unfold getSession; simpl; apply map_get_set_eq |].
      split; [reflexivity |]. simpl. apply js_or_null_idem. }
  assert (Hreject : truthy accessToken = false →
            result.1 = json 401 (message "Authentication failed. No access token received.") ∧
            store result.2 = store w).
  { intros Hfalsy. unfold result, Routes.post_login. run_handler.
    rewrite Hbody. simpl. rewrite Hup, Hok. simpl. rewrite Hparse. simpl.
    fold nested flat accessToken. rewrite Hfalsy. simpl. split; reflexivity. }
  split; [exact Haccept |]. split; [exact Hreject |].
  intros H401. destruct (truthy accessToken) eqn:Htruthy.
  - destruct (Haccept eq_refl) as [H200 _]. rewrite H200 in H401. discriminate.
  - apply js_or_falsy_both. exact Htruthy.
Qed.

Lemma login_token_locations_witness :
  let result :=
    Routes.post_login (example_request None login_body)
      (example_env (λ _, 0) (example_response 200 "OK") (Some nested_tokens) None)
      fresh_world in
  res_status result.1 = 200 ∧
  (res_cookies result.1).*1 = [ ("auth_token", VStr "tok-nested") ].
Proof.
  edestruct (login_token_locations (example_request None login_body)
               (example_env (λ _, 0) (example_response 200 "OK") (Some nested_tokens) None)
               fresh_world "alice" "secret")
    as (_ & _ & Haccept & _).
  - reflexivity.
  - reflexivity.
  - reflexivity.
  - reflexivity.
  - destruct Haccept as (Hstatus & Hcookie & _); [reflexivity |].
    split; [exact Hstatus |]. rewrite Hcookie. reflexivity.
Defined.

(** The same login in the flat shape, and with no token at all. *)
Example login_with_flat_token :
  let result :=
    Routes.post_login (example_request None login_body)
      (example_env (λ _, 0) (example_response 200 "OK") (Some flat_tokens) None)
      fresh_world in
  res_status result.1 = 200 ∧
  (res_cookies result.1).*1 = [ ("auth_token", VStr "tok-flat") ].
Proof. vm_compute. split; reflexivity. Qed.

Example login_without_token :
  (Routes.post_login (example_request None login_body)
     (example_env (λ _, 0) (example_response 200 "OK") (Some no_tokens) None)
     fresh_world).1
  = json 401 (message "Authentication failed. No access token received.").
Proof. vm_compute. reflexivity. Qed.

(** A body that parses to [null] is not an object: reading [authData.data]
    throws, and the login answers 500. *)
Example login_with_null_body :
  res_status
    (Routes.post_login (example_request None login_body)
       (example_env (λ _, 0) (example_response 200 "OK") (Some VNull) None)
       fresh_world).1 = 500.
Proof. reflexivity. Qed.

(** The draft of the login looks at the flat shape only: the nested shape
    is answered 401 there. *)
Example draft_login_rejects_nested_token :
  (Draft.post_login_draft (example_request None login_body)
     (example_env (λ _, 0) (example_response 200 "OK") (Some nested_tokens) None)
     fresh_world).1
  = json 401 (message "Authentication failed. Invalid response from server.").
Proof. vm_compute. reflexivity. Qed.

(** So does the earlier login at the end of [routes.ts]. *)
Example legacy_login_rejects_nested_token :
  (Routes.post_login_legacy (example_request None login_body)
     (example_env (λ _, 0) (example_response 200 "OK") (Some nested_tokens) None)
     fresh_world).1
  = json 401 (message "Authentication failed. Invalid response from server.").
Proof. vm_compute. reflexivity. Qed.

(* ===================================================================== *)
(** * Further properties of the store *)
(* ===================================================================== *)

Section JSMapMore.
Context {V : Type}.
Implicit Types (m : list (Z * V)) (k j : Z) (v : V).

Lemma map_get_Some_elem k v m : map_get k m = Some v → (k, v) ∈ m.
Proof.
  induction m as [| [k' v'] m IH]; simpl; [discriminate |].
  destruct (decide (k = k')) as [-> | Hne]; intros H.
  - injection H as ->. apply list_elem_of_here.
  - apply list_elem_of_further. auto.
Qed.

Lemma map_delete_idem k m : map_delete k (map_delete k m) = map_delete k m.
Proof.
  apply map_delete_absent. rewrite map_keys_delete.
  intros H. apply list_elem_of_filter in H as [H _]. contradiction.
Qed.

(** Keys handed out by a counter: sorted, and below the counter. *)
Lemma counter_keys_append (n : Z) v m :
  StronglySorted Z.lt (map_keys m) → Forall (λ k, k < n) (map_keys m) →
  map_set n v m = m ++ [(n, v)] ∧
  StronglySorted Z.lt (map_keys (map_set n v m)) ∧
  Forall (λ k, k < n + 1) (map_keys (map_set n v m)).
Proof.
  intros Hsorted Hlt.
  assert (Hfresh : n ∉ map_keys m).
  { intros Hin. rewrite Forall_forall in Hlt. specialize (Hlt _ Hin). lia. }
  rewrite map_set_fresh by exact Hfresh. split; [reflexivity |].
  unfold map_keys in *. rewrite fmap_app. simpl. split.
  - apply StronglySorted_app_2; [| exact Hsorted | repeat constructor].
    intros x1 x2 H1 H2. apply list_elem_of_singleton in H2 as ->.
    rewrite Forall_forall in Hlt. auto.
  - apply Forall_app. split.
    + eapply Forall_impl; [exact Hlt |]. simpl. intros; lia.
    + repeat constructor. lia.
Qed.

End JSMapMore.

Lemma with_agents_same (st : MemStorage) :
  with_agents st (agents st) (currentAgentId st) = st.
Proof. destruct st; reflexivity. Qed.

Lemma with_sessions_same (st : MemStorage) :
  with_sessions st (sessions st) (currentSessionId st) = st.
Proof. destruct st; reflexivity. Qed.

Lemma constructor_users_inv (clock : nat → Z) : users_inv (constructor clock).
Proof. repeat split; constructor. Qed.

Lemma createUser_users_inv (iu : InsertUser) (st : MemStorage) :
  users_inv st → users_inv (createUser iu st).2.
Proof.
  intros (Hsorted & Hlt & Hid). unfold users_inv, createUser. simpl.
  destruct (counter_keys_append (currentUserId st)
              {| user_id := currentUserId st; user_username := iu_username iu;
                 user_password := iu_password iu |} (users st) Hsorted Hlt)
    as (_ & Hs & Hl).
  split; [exact Hs |]. split; [exact Hl |].
  apply map_set_Forall; [reflexivity | exact Hid].
Qed.

Lemma apply_op_users_inv (op : StoreOp) (st : MemStorage) :
  users_inv st → users_inv (apply_op op st).
Proof.
  intros Hinv. destruct op as [iu | ins now | u | a now | id upd | id]; simpl;
    try exact Hinv.
  - apply createUser_users_inv. exact Hinv.
  - unfold updateAgent. destruct (map_get id (agents st)); exact Hinv.
Qed.

Lemma reachable_users_inv (clock : nat → Z) (ops : list StoreOp) :
  users_inv (run_ops ops (constructor clock)).
Proof.
  apply run_ops_inv; [apply apply_op_users_inv | apply constructor_users_inv].
Qed.

(** X1: on a store reached by any sequence of operations, [createUser]
    hands out an id that no stored account has, files the account under
    it with the given username and password, and leaves every other
    account as it was; every stored account is filed under its own id. *)
Theorem created_user_is_fresh_and_found
    (clock : nat → Z) (ops : list StoreOp) (insertUser : InsertUser) :
  let st := run_ops ops (constructor clock) in
  let user := (createUser insertUser st).1 in
  let st' := (createUser insertUser st).2 in
  getUser (user_id user) st = None ∧
  getUser (user_id user) st' = Some user ∧
  user_username user = iu_username insertUser ∧
  user_password user = iu_password insertUser ∧
  (∀ id : Z, id ≠ user_id user → getUser id st' = getUser id st) ∧
  (∀ (id : Z) (x : User), getUser id st' = Some x → user_id x = id).
Proof.
  intros st user st'. pose proof (reachable_users_inv clock ops) as Hinv. fold st in Hinv.
  pose proof (createUser_users_inv insertUser st Hinv) as (_ & _ & Hid').
  destruct Hinv as (Hsorted & Hlt & Hid).
  split.
  { unfold getUser. apply map_get_None. intros Hin.
    rewrite Forall_forall in Hlt. specialize (Hlt _ Hin). simpl in Hlt. lia. }
  split; [unfold getUser; simpl; apply map_get_set_eq |].
  split; [reflexivity |]. split; [reflexivity |].
  split.
  - intros id Hne. unfold getUser. simpl. apply map_get_set_ne. exact Hne.
  - intros id x Hget. apply map_get_Some_elem in Hget.
    rewrite Forall_forall in Hid'. apply (Hid' (id, x)). exact Hget.
Qed.

Lemma find_app_first {A} (f : A → bool) (l l' : list A) :
  List.find f (l ++ l') = match List.find f l with
                          | Some x => Some x
                          | None => List.find f l'
                          end.
Proof.
  induction l as [| x l IH]; simpl; [reflexivity |].
  destruct (f x); [reflexivity | exact IH].
Qed.

Lemma find_None_iff {A} (f : A → bool) (l : list A) :
  List.find f l = None ↔ ∀ x, x ∈ l → f x = false.
Proof.
  split.
  - intros H x Hx. apply (find_none f l H x). apply list_elem_of_In. exact Hx.
  - induction l as [| x l IH]; simpl; intros H; [reflexivity |].
    rewrite (H x) by apply list_elem_of_here.
    apply IH. intros y Hy. apply H. apply list_elem_of_further. exact Hy.
Qed.

Lemma map_get_of_elem {V} (k : Z) (v : V) (m : list (Z * V)) :
  NoDup (map_keys m) → (k, v) ∈ m → map_get k m = Some v.
Proof.
  unfold map_keys. induction m as [| [k' v'] m IH]; simpl; intros Hnd Hin.
  - apply elem_of_nil in Hin. contradiction.
  - apply NoDup_cons in Hnd as [Hk Hnd].
    apply elem_of_cons in Hin as [Heq | Hin].
    + injection Heq as -> ->. rewrite decide_True; reflexivity.
    + destruct (decide (k = k')) as [-> | Hne]; [| auto].
      exfalso. apply Hk. apply (list_elem_of_fmap_2 fst) in Hin. exact Hin.
Qed.

Lemma sorted_keys_NoDup (l : list Z) : StronglySorted Z.lt l → NoDup l.
Proof.
  induction 1 as [| x l Hl IH Hx]; constructor; [| exact IH].
  intros Hin. rewrite Forall_forall in Hx. specialize (Hx _ Hin). lia.
Qed.

(** X2: [getUserByUsername] answers absent exactly when no stored account
    has the name; an account it returns is stored, has the name and is
    the one [getUser] finds under its id.  [createUser] does not check for
    duplicates: after it, the lookup by the new account's name returns the
    account that already had the name, if there was one, and the new
    account otherwise. *)
Theorem getUserByUsername_finds_oldest
    (clock : nat → Z) (ops : list StoreOp) (name : string) :
  let st := run_ops ops (constructor clock) in
  (getUserByUsername name st = None ↔
   ∀ u : User, u ∈ map_values (users st) → user_username u ≠ name) ∧
  (∀ u : User, getUserByUsername name st = Some u →
     u ∈ map_values (users st) ∧ user_username u = name ∧
     getUser (user_id u) st = Some u) ∧
  (∀ insertUser : InsertUser,
     iu_username insertUser = name →
     getUserByUsername name (createUser insertUser st).2
     = Some (match getUserByUsername name st with
             | Some old => old
             | None => (createUser insertUser st).1
             end)).
Proof.
  intros st. pose proof (reachable_users_inv clock ops) as (Hsorted & Hlt & Hid).
  fold st in Hsorted, Hlt, Hid.
  split; [| split].
  - unfold getUserByUsername. rewrite find_None_iff. split.
    + intros H u Hu Heq. specialize (H u Hu).
      apply String.eqb_neq in H. contradiction.
    + intros H u Hu. apply String.eqb_neq. apply H. exact Hu.
  - intros u Hfind. unfold getUserByUsername in Hfind.
    apply find_some in Hfind as [Hin Hname].
    apply list_elem_of_In in Hin. apply String.eqb_eq in Hname.
    split; [exact Hin |]. split; [exact Hname |].
    unfold map_values in Hin. apply list_elem_of_fmap in Hin as ([k x] & -> & Hkx).
    rewrite Forall_forall in Hid. pose proof (Hid _ Hkx) as Hk. simpl in Hk.
    simpl. rewrite Hk. unfold getUser. apply map_get_of_elem; [| exact Hkx].
    apply sorted_keys_NoDup. exact Hsorted.
  - intros insertUser Hname. unfold getUserByUsername, createUser. simpl.
    destruct (counter_keys_append (currentUserId st)
                {| user_id := currentUserId st; user_username := iu_username insertUser;
                   user_password := iu_password insertUser |} (users st) Hsorted Hlt)
      as (-> & _ & _).
    unfold map_values. rewrite fmap_app, find_app_first. simpl.
    destruct (List.find _ (users st).*2); [reflexivity |].
    rewrite Hname, String.eqb_refl. reflexivity.
Qed.

(** X3: [createAgent] files the record it returns under the current
    counter value: [getAgent] of that id returns it, its [id] is that
    value, its [created_at] the time of the call, its [externalId] the
    given one when that is truthy and [null] otherwise (so an empty
    string becomes [null]); every other property is the one given, the
    counter advances by one and the records under other ids are as
    before. *)
Theorem created_agent_is_stored (st : MemStorage) (insertAgent : jsobj) (now : Z) :
  let agent := (createAgent insertAgent now st).1 in
  let st' := (createAgent insertAgent now st).2 in
  getAgent (currentAgentId st) st' = Some agent ∧
  field agent "id" = VNum (currentAgentId st) ∧
  field agent "created_at" = VDate now ∧
  field agent "externalId" = js_or (field insertAgent "externalId") VNull ∧
  (∀ k : string, k ≠ "id" → k ≠ "externalId" → k ≠ "created_at" →
     field agent k = field insertAgent k) ∧
  currentAgentId st' = currentAgentId st + 1 ∧
  (∀ id : Z, id ≠ currentAgentId st → getAgent id st' = getAgent id st).
Proof.
  intros agent st'.
  split; [unfold getAgent; simpl; apply map_get_set_eq |].
  split; [apply createAgent_id |].
  split.
  { unfold agent, createAgent. simpl. apply field_spread_l. unfold obj. simpl.
    rewrite !lookup_insert_ne by discriminate. apply lookup_insert_eq. }
  split.
  { unfold agent, createAgent. simpl. apply field_spread_l. unfold obj. simpl.
    rewrite lookup_insert_ne by discriminate. apply lookup_insert_eq. }
  split.
  { intros k H1 H2 H3. unfold agent, createAgent. simpl. apply field_spread_r.
    unfold obj. simpl. rewrite !lookup_insert_ne by congruence. apply lookup_empty. }
  split; [reflexivity |].
  intros id Hne. unfold getAgent. simpl. apply map_get_set_ne. exact Hne.
Qed.

Lemma apply_op_counters (op : StoreOp) (st : MemStorage) :
  currentUserId st ≤ currentUserId (apply_op op st) ∧
  currentSessionId st ≤ currentSessionId (apply_op op st) ∧
  currentAgentId st ≤ currentAgentId (apply_op op st).
Proof.
  destruct op as [iu | ins now | u | a now | id upd | id]; simpl; try lia.
  unfold updateAgent. destruct (map_get id (agents st)); simpl; lia.
Qed.

Lemma run_ops_counters (ops : list StoreOp) (st : MemStorage) :
  currentUserId st ≤ currentUserId (run_ops ops st) ∧
  currentSessionId st ≤ currentSessionId (run_ops ops st) ∧
  currentAgentId st ≤ currentAgentId (run_ops ops st).
Proof.
  revert st. unfold run_ops.
  induction ops as [| op ops IH]; simpl; intros st; [lia |].
  pose proof (apply_op_counters op st). pose proof (IH (apply_op op st)). lia.
Qed.

(** X4: the three id counters never go down, whatever operations run; so
    an agent id is never handed out twice, not even after the record that
    had it was deleted: an agent created after any further operations
    gets a strictly larger id. *)
Theorem ids_are_never_reused (st : MemStorage) (ops : list StoreOp)
    (A B : jsobj) (nowA nowB : Z) :
  currentUserId st ≤ currentUserId (run_ops ops st) ∧
  currentSessionId st ≤ currentSessionId (run_ops ops st) ∧
  currentAgentId st ≤ currentAgentId (run_ops ops st) ∧
  let a := (createAgent A nowA st).1 in
  let later := run_ops ops (createAgent A nowA st).2 in
  let b := (createAgent B nowB later).1 in
  ∃ i j : Z, field a "id" = VNum i ∧ field b "id" = VNum j ∧ i < j.
Proof.
  pose proof (run_ops_counters ops st) as (Hu & Hs & Ha).
  split; [exact Hu |]. split; [exact Hs |]. split; [exact Ha |].
  intros a later b.
  exists (currentAgentId st), (currentAgentId later).
  split; [apply createAgent_id |]. split; [apply createAgent_id |].
  pose proof (run_ops_counters ops (createAgent A nowA st).2) as (_ & _ & Hlater).
  fold later in Hlater. simpl in Hlater. lia.
Qed.

(** X5: [deleteAgent] removes the record under the id and nothing else:
    the id is absent afterwards, the other records and the counter are as
    before, deleting again changes nothing, and deleting an id that is
    not stored leaves the store as it is. *)
Theorem deleteAgent_removes_one (st : MemStorage) (id : Z) :
  getAgent id (deleteAgent id st) = None ∧
  (∀ j : Z, j ≠ id → getAgent j (deleteAgent id st) = getAgent j st) ∧
  currentAgentId (deleteAgent id st) = currentAgentId st ∧
  deleteAgent id (deleteAgent id st) = deleteAgent id st ∧
  (getAgent id st = None → deleteAgent id st = st).
Proof.
  split; [unfold getAgent; simpl; apply map_get_delete_eq |].
  split; [intros j Hne; unfold getAgent; simpl; apply map_get_delete_ne; exact Hne |].
  split; [reflexivity |].
  split.
  - unfold deleteAgent. simpl. rewrite map_delete_idem. reflexivity.
  - intros Habsent. unfold deleteAgent. unfold getAgent in Habsent.
    rewrite map_delete_absent by (apply map_get_None; exact Habsent).
    apply with_agents_same.
Qed.

(** X6: the session map is a one-slot-per-user store: [getSession] after
    [createSession] returns the session just created, whose refresh token
    is the given one when truthy and [null] otherwise; [deleteSession]
    empties the slot, is idempotent and leaves the store as it is when the
    slot is empty; neither touches the slot of another user. *)
Theorem session_slot_round_trip (st : MemStorage) (ins : InsertSession) (now : Z) (u : Z) :
  let session := (createSession ins now st).1 in
  let st' := (createSession ins now st).2 in
  getSession (is_userId ins) st' = Some session ∧
  session_accessToken session = is_accessToken ins ∧
  session_refreshToken session = js_or (is_refreshToken ins) VNull ∧
  session_id session = currentSessionId st ∧
  (∀ v : Z, v ≠ is_userId ins → getSession v st' = getSession v st) ∧
  getSession u (deleteSession u st) = None ∧
  (∀ v : Z, v ≠ u → getSession v (deleteSession u st) = getSession v st) ∧
  deleteSession u (deleteSession u st) = deleteSession u st ∧
  (getSession u st = None → deleteSession u st = st).
Proof.
  intros session st'.
  split; [unfold getSession; simpl; apply map_get_set_eq |].
  do 3 (split; [reflexivity |]).
  split; [intros v Hne; unfold getSession; simpl; apply map_get_set_ne; exact Hne |].
  split; [unfold getSession; simpl; apply map_get_delete_eq |].
  split; [intros v Hne; unfold getSession; simpl; apply map_get_delete_ne; exact Hne |].
  split.
  - unfold deleteSession. simpl. rewrite map_delete_idem. reflexivity.
  - intros Habsent. unfold deleteSession. unfold getSession in Habsent.
    rewrite map_delete_absent by (apply map_get_None; exact Habsent).
    apply with_sessions_same.
Qed.

Lemma js_or_null_normalised (v : JSVal) :
  js_or v VNull = VNull ∨ truthy (js_or v VNull) = true.
Proof.
  unfold js_or. destruct (truthy v) eqn:Hv; [right; exact Hv | left; reflexivity].
Qed.

(** X7: whatever sequence of operations has run on a fresh store, the
    refresh token of every stored session is [null] or a truthy value: a
    missing, [undefined] or empty-string refresh token is never stored as
    such. *)
Theorem stored_refresh_tokens_are_normalised (clock : nat → Z) (ops : list StoreOp) :
  Forall refresh_normalised (map_values (sessions (run_ops ops (constructor clock)))).
Proof.
  apply (run_ops_inv (λ st, Forall refresh_normalised (map_values (sessions st))));
    [| constructor].
  intros op st Hinv. destruct op as [iu | ins now | u | a now | id upd | id]; simpl;
    try exact Hinv.
  - unfold map_values in *. rewrite Forall_fmap in Hinv |- *.
    apply map_set_Forall; [| exact Hinv].
    simpl. unfold refresh_normalised. simpl. apply js_or_null_normalised.
  - unfold map_values in *. rewrite Forall_fmap in Hinv |- *.
    apply map_delete_Forall. exact Hinv.
  - unfold updateAgent. destruct (map_get id (agents st)); exact Hinv.
Qed.

Lemma constructor_ids_match_keys (clock : nat → Z) : ids_match_keys (constructor clock).
Proof.
  unfold ids_match_keys.
  repeat (constructor; [vm_compute; reflexivity |]). constructor.
Qed.

Lemma apply_op_ids_match_keys (op : StoreOp) (st : MemStorage) :
  carries_no_id op → ids_match_keys st → ids_match_keys (apply_op op st).
Proof.
  unfold ids_match_keys.
  intros Hop Hinv. destruct op as [iu | ins now | u | a now | id upd | id]; simpl;
    try exact Hinv.
  - apply map_set_Forall; [| exact Hinv]. simpl.
    apply (createAgent_id a now st).
  - unfold updateAgent. destruct (map_get id (agents st)) as [existing |] eqn:Hget;
      simpl; [| exact Hinv].
    apply map_set_Forall; [| exact Hinv]. simpl. simpl in Hop.
    rewrite field_spread_r by exact Hop.
    apply map_get_Some_elem in Hget. rewrite Forall_forall in Hinv.
    apply (Hinv (id, existing)). exact Hget.
  - apply map_delete_Forall. exact Hinv.
Qed.

(** X8: as long as no update carries an [id] property, every stored
    agent record names its own key in its [id] property, after any
    sequence of operations on a fresh store.  ([updateAgent] spreads the
    update over the record, so an update that does carry [id] overwrites
    the property while the record stays under its key.) *)
Theorem agent_ids_match_their_keys (clock : nat → Z) (ops : list StoreOp) :
  Forall carries_no_id ops →
  ids_match_keys (run_ops ops (constructor clock)) ∧
  ∀ (id : Z) (agent : Agent),
    getAgent id (run_ops ops (constructor clock)) = Some agent →
    field agent "id" = VNum id.
Proof.
  intros Hops.
  assert (Hinv : ids_match_keys (run_ops ops (constructor clock))).
  { pose proof (constructor_ids_match_keys clock) as Hst.
    revert Hst. generalize (constructor clock). unfold run_ops.
    induction Hops as [| op ops Hop Hops IH]; simpl; intros st Hst; [exact Hst |].
    apply IH. apply apply_op_ids_match_keys; assumption. }
  split; [exact Hinv |].
  intros id agent Hget. apply map_get_Some_elem in Hget.
  unfold ids_match_keys in Hinv. rewrite Forall_forall in Hinv.
  apply (Hinv (id, agent)). exact Hget.
Qed.

Lemma agent_ids_match_their_keys_witness :
  ids_match_keys
    (run_ops [ OpCreateAgent (obj [ ("name", VStr "A") ]) 7;
               OpUpdateAgent 4 (obj [ ("description", VStr "new") ]);
               OpDeleteAgent 2 ] (constructor (λ _, 0))).
Proof.
  apply (agent_ids_match_their_keys (λ _, 0)
           [ OpCreateAgent (obj [ ("name", VStr "A") ]) 7;
             OpUpdateAgent 4 (obj [ ("description", VStr "new") ]);
             OpDeleteAgent 2 ]).
  repeat constructor.
Defined.

(** An update that carries [id] breaks the correspondence. *)
Example update_can_overwrite_the_id_property :
  let st := (updateAgent 1 (obj [ ("id", VNum 99) ]) (constructor (λ _, 0))).2 in
  (λ a, field a "id") <$> getAgent 1 st = Some (VNum 99).
Proof. vm_compute. reflexivity. Qed.

(* ===================================================================== *)
(** * Further properties of the route handlers *)
(* ===================================================================== *)

(** What the tail of a successful login does, in one equation. *)
Lemma establish_session_spec (username password : string)
    (accessToken refreshToken : JSVal) (env : Env) (w : World) :
  Routes.establish_session username password accessToken refreshToken env w
  = (inr (with_cookie "auth_token" accessToken (auth_cookie_options env)
            (json 200 (VObj (obj
               [ ("success", VBool true);
                 ("message", VStr "Login successful");
                 ("user", VObj (obj
                    [ ("id", VNum (user_id (login_user username password (store w))));
                      ("username",
                       VStr (user_username (login_user username password (store w)))) ])) ])))),
     {| store := logged_in username password accessToken (js_or refreshToken VNull)
                   (plus_hours env (clock env (ticks w)) 24)
                   (clock env (S (ticks w))) (store w);
        ticks := S (S (ticks w));
        outbound := outbound w |}).
Proof.
  unfold Routes.establish_session, logged_in, login_user, resolve_user. run_handler.
  destruct (getUserByUsername username (store w)); reflexivity.
Qed.

(** Closes the branch of a handler that fails without touching the store. *)
Ltac failed_branch :=
  left; simpl;
  split; [repeat first [apply list_elem_of_here | apply list_elem_of_further]
         | repeat split].

(** Every login of [routes.ts] either fails and leaves the store and the
    cookies alone, or succeeds through the session tail. *)
Lemma routes_login_effect (req : Request) (env : Env) (w : World) :
  login_outcome req env w (Routes.post_login req env w).1 (Routes.post_login req env w).2.
Proof.
  destruct (Routes.post_login req env w) as [res w'] eqn:H. simpl.
  unfold Routes.post_login, handle, bind at 1 in H.
  destruct (loginSchema_parse (req_body req)) as [[username password] |] eqn:Hbody;
    [| injection H as <- <-; failed_branch].
  unfold or_throw at 1, ret at 1, bind at 1, ask at 1, bind at 1, fetch in H.
  destruct (upstream env (Routes.login_request env username password)) as [| r];
    [injection H as <- <-; failed_branch |].
  destruct (resp_ok r); simpl in H; [| injection H as <- <-; failed_branch].
  destruct (JSON_parse env (resp_text r)) as [authData |];
    [| injection H as <- <-; failed_branch].
  unfold bind at 1 in H.
  destruct (get_prop authData "data") as [data |];
    [| injection H as <- <-; failed_branch].
  unfold or_throw at 1, ret at 1, bind at 1 in H.
  destruct (get_prop authData "access_token") as [flat |];
    [| injection H as <- <-; failed_branch].
  unfold or_throw at 1, ret at 1, bind at 1 in H.
  destruct (get_prop authData "refresh_token") as [rflat |];
    [| injection H as <- <-; failed_branch].
  unfold or_throw at 1, ret at 1 in H.
  destruct (truthy (js_or (opt_chain data "accessToken") flat)) eqn:Htok; simpl in H;
    [| injection H as <- <-; failed_branch].
  rewrite establish_session_spec in H. injection H as <- <-. right.
  exists username, password, (js_or (opt_chain data "accessToken") flat),
    (js_or (opt_chain data "refreshToken") rflat).
  split; [exact Hbody |]. split; [exact Htok |]. repeat split.
Qed.

(** So does the earlier login at the end of the file. *)
Lemma legacy_login_effect (req : Request) (env : Env) (w : World) :
  login_outcome req env w
    (Routes.post_login_legacy req env w).1 (Routes.post_login_legacy req env w).2.
Proof.
  destruct (Routes.post_login_legacy req env w) as [res w'] eqn:H. simpl.
  unfold Routes.post_login_legacy, handle, bind at 1 in H.
  destruct (loginSchema_parse (req_body req)) as [[username password] |] eqn:Hbody;
    [| injection H as <- <-; failed_branch].
  unfold or_throw at 1, ret at 1, bind at 1, ask at 1, bind at 1, fetch in H.
  destruct (upstream env (Routes.login_request_legacy env username password)) as [| r];
    [injection H as <- <-; failed_branch |].
  destruct (resp_ok r); simpl in H; [| injection H as <- <-; failed_branch].
  unfold bind at 1, response_json, bind at 1, ask at 1 in H.
  destruct (JSON_parse env (resp_text r)) as [authData |];
    [| injection H as <- <-; failed_branch].
  unfold or_throw at 1, ret at 1, bind at 1 in H.
  destruct (get_prop authData "access_token") as [flat |];
    [| injection H as <- <-; failed_branch].
  unfold or_throw at 1, ret at 1 in H.
  destruct (truthy flat) eqn:Htok; simpl in H;
    [| injection H as <- <-; failed_branch].
  unfold bind at 1 in H.
  destruct (get_prop authData "refresh_token") as [rflat |];
    [| injection H as <- <-; failed_branch].
  unfold or_throw at 1, ret at 1 in H.
  rewrite establish_session_spec in H. injection H as <- <-. right.
  exists username, password, flat, rflat.
  split; [exact Hbody |]. split; [exact Htok |]. repeat split.
Qed.

Lemma logged_in_session (username password : string) (accessToken refreshToken : JSVal)
    (expiresAt createdAt : Z) (st : MemStorage) :
  ∃ s : Session,
    getSession (user_id (login_user username password st))
      (logged_in username password accessToken refreshToken expiresAt createdAt st)
    = Some s ∧
    session_userId s = user_id (login_user username password st) ∧
    session_accessToken s = accessToken ∧
    session_expiresAt s = expiresAt ∧
    session_createdAt s = createdAt.
Proof.
  eexists. split; [unfold logged_in, getSession; simpl; apply map_get_set_eq |].
  repeat split.
Qed.

Lemma login_user_username (username password : string) (st : MemStorage) :
  user_username (login_user username password st) = username.
Proof.
  unfold login_user. destruct (getUserByUsername username st) as [u |] eqn:Hfind;
    [| reflexivity].
  unfold getUserByUsername in Hfind. apply find_some in Hfind as [_ Hname].
  apply String.eqb_eq. exact Hname.
Qed.

Lemma login_outcome_all_or_nothing (req : Request) (env : Env) (w : World)
    (res : Res) (w' : World) :
  login_outcome req env w res w' →
  res_status res ∈ [200; 400; 401; 500] ∧
  (res_status res ≠ 200 → store w' = store w ∧ res_cookies res = []) ∧
  (res_status res = 200 →
   ∃ (username password : string) (accessToken : JSVal) (s : Session),
     loginSchema_parse (req_body req) = Some (username, password) ∧
     truthy accessToken = true ∧
     res_cookies res = [ ("auth_token", accessToken, auth_cookie_options env) ] ∧
     user_username (login_user username password (store w)) = username ∧
     getSession (user_id (login_user username password (store w))) (store w') = Some s ∧
     session_accessToken s = accessToken ∧
     session_expiresAt s = plus_hours env (clock env (ticks w)) 24).
Proof.
  intros [(Hstatus & Hcookies & Hstore & _) |
          (username & password & tok & rt & Hbody & Htok & Hstatus & Hcookie & Hstore)].
  - split; [apply list_elem_of_further; exact Hstatus |].
    split; [auto |].
    intros H200. rewrite H200 in Hstatus.
    repeat (apply elem_of_cons in Hstatus as [Hstatus | Hstatus]; [discriminate |]).
    apply elem_of_nil in Hstatus. contradiction.
  - split; [rewrite Hstatus; apply list_elem_of_here |].
    split; [intros Hne; contradiction |].
    intros _.
    destruct (logged_in_session username password tok (js_or rt VNull)
                (plus_hours env (clock env (ticks w)) 24) (clock env (S (ticks w)))
                (store w)) as (s & Hget & _ & Hacc & Hexp & _).
    exists username, password, tok, s. rewrite Hstore.
    split; [exact Hbody |]. split; [exact Htok |]. split; [exact Hcookie |].
    split; [apply login_user_username |]. auto.
Qed.

(** X9: a login of [routes.ts] is all or nothing.  It answers 200, 400,
    401 or 500.  Unless it answers 200 it leaves the store as it was and
    sets no cookie; when it answers 200 the [auth_token] cookie carries a
    truthy token, and the session stored for the account of the submitted
    username holds that same token and expires 24 hours (of local time)
    after the clock reading of the request.  The same holds of the earlier
    login at the end of the file. *)
Theorem login_is_all_or_nothing (req : Request) (env : Env) (w : World) :
  Forall (λ login : Request → Handler,
    let result := login req env w in
    res_status result.1 ∈ [200; 400; 401; 500] ∧
    (res_status result.1 ≠ 200 →
     store result.2 = store w ∧ res_cookies result.1 = []) ∧
    (res_status result.1 = 200 →
     ∃ (username password : string) (accessToken : JSVal) (s : Session),
       loginSchema_parse (req_body req) = Some (username, password) ∧
       truthy accessToken = true ∧
       res_cookies result.1 = [ ("auth_token", accessToken, auth_cookie_options env) ] ∧
       user_username (login_user username password (store w)) = username ∧
       getSession (user_id (login_user username password (store w))) (store result.2)
       = Some s ∧
       session_accessToken s = accessToken ∧
       session_expiresAt s = plus_hours env (clock env (ticks w)) 24))
    [ Routes.post_login; Routes.post_login_legacy ].
Proof.
  constructor; [apply login_outcome_all_or_nothing, routes_login_effect |].
  constructor; [apply login_outcome_all_or_nothing, legacy_login_effect |].
  constructor.
Qed.

Lemma map_set_values_elem {V} (k : Z) (v x : V) (m : list (Z * V)) :
  x ∈ map_values (map_set k v m) → x = v ∨ x ∈ map_values m.
Proof.
  unfold map_values. induction m as [| [k' v'] m IH]; simpl; intros Hx.
  - apply list_elem_of_singleton in Hx. auto.
  - destruct (decide (k = k')) as [-> | Hne]; simpl in Hx.
    + apply elem_of_cons in Hx as [-> | Hx]; [auto |].
      right. apply list_elem_of_further. exact Hx.
    + apply elem_of_cons in Hx as [-> | Hx]; [right; apply list_elem_of_here |].
      destruct (IH Hx) as [-> | Hin]; [auto |].
      right. apply list_elem_of_further. exact Hin.
Qed.

(** Filing an account whose name is new keeps the names distinct, whether
    its key is new or taken. *)
Lemma map_set_usernames_unique (k : Z) (u : User) (m : list (Z * User)) :
  NoDup (user_username <$> map_values m) →
  user_username u ∉ user_username <$> map_values m →
  NoDup (user_username <$> map_values (map_set k u m)).
Proof.
  unfold map_values. induction m as [| [k' v'] m IH]; simpl; intros Hnd Hfresh.
  - apply NoDup_singleton.
  - apply NoDup_cons in Hnd as [Hv' Hnd].
    apply not_elem_of_cons in Hfresh as [Hne Hfresh].
    destruct (decide (k = k')) as [-> | Hk]; simpl.
    + apply NoDup_cons. split; assumption.
    + apply NoDup_cons. split; [| apply IH; assumption].
      intros Hin. apply list_elem_of_fmap in Hin as (x & Hname & Hx).
      apply (map_set_values_elem k u x m) in Hx as [-> | Hx]; [congruence |].
      apply Hv'. rewrite Hname. apply list_elem_of_fmap_2. exact Hx.
Qed.

Lemma find_in_map_set (f : User → bool) (k : Z) (u : User) (m : list (Z * User)) :
  f u = true → List.find f (map_values m) = None →
  List.find f (map_values (map_set k u m)) = Some u.
Proof.
  unfold map_values. intros Hu. induction m as [| [k' v'] m IH]; simpl; intros Hnone.
  - rewrite Hu. reflexivity.
  - destruct (f v') eqn:Hv'; [discriminate |].
    destruct (decide (k = k')) as [-> | Hk]; simpl.
    + rewrite Hu. reflexivity.
    + rewrite Hv'. apply IH. exact Hnone.
Qed.

Lemma resolve_user_spec (username password : string) (st : MemStorage) :
  (usernames_unique st → usernames_unique (resolve_user username password st)) ∧
  getUserByUsername username (resolve_user username password st)
  = Some (login_user username password st) ∧
  (∀ old : User, getUserByUsername username st = Some old →
     resolve_user username password st = st).
Proof.
  unfold resolve_user, login_user, usernames_unique.
  destruct (getUserByUsername username st) as [old |] eqn:Hfind.
  - split; [auto |]. split; [exact Hfind | reflexivity].
  - split; [| split; [| discriminate]].
    + intros Hnd. unfold createUser. simpl.
      apply map_set_usernames_unique; [exact Hnd |]. simpl.
      intros Hin. apply list_elem_of_fmap in Hin as (x & Hname & Hx).
      unfold getUserByUsername in Hfind. rewrite find_None_iff in Hfind.
      specialize (Hfind x Hx). apply String.eqb_neq in Hfind. congruence.
    + unfold getUserByUsername, createUser in *. simpl.
      apply find_in_map_set; [| exact Hfind]. simpl. apply String.eqb_refl.
Qed.

Lemma login_outcome_accounts (req : Request) (env : Env) (w : World)
    (res : Res) (w' : World) :
  usernames_unique (store w) →
  login_outcome req env w res w' →
  usernames_unique (store w') ∧
  (res_status res = 200 →
   ∃ username password : string,
     loginSchema_parse (req_body req) = Some (username, password) ∧
     getUserByUsername username (store w')
     = Some (login_user username password (store w)) ∧
     (∀ old : User, getUserByUsername username (store w) = Some old →
        users (store w') = users (store w))).
Proof.
  intros Hunique
    [(Hstatus & _ & Hstore & _) |
     (username & password & tok & rt & Hbody & _ & _ & _ & Hstore)].
  - rewrite Hstore. split; [exact Hunique |].
    intros H200. rewrite H200 in Hstatus.
    repeat (apply elem_of_cons in Hstatus as [Hstatus | Hstatus]; [discriminate |]).
    apply elem_of_nil in Hstatus. contradiction.
  - destruct (resolve_user_spec username password (store w)) as (Hkeep & Hfound & Hsame).
    rewrite Hstore. split; [apply Hkeep; exact Hunique |].
    intros _. exists username, password.
    split; [exact Hbody |]. split; [exact Hfound |].
    intros old Hold. unfold logged_in. simpl. rewrite (Hsame old Hold). reflexivity.
Qed.

(** X10: a login of [routes.ts] (either one) never makes two accounts of
    one username: when the stored usernames are distinct they stay
    distinct; after a login that answers 200 the lookup by the submitted
    username returns the account the login resolved to, and when that
    username was already known the map of accounts is as it was. *)
Theorem login_keeps_usernames_unique (req : Request) (env : Env) (w : World) :
  usernames_unique (store w) →
  Forall (λ login : Request → Handler,
    let result := login req env w in
    usernames_unique (store result.2) ∧
    (res_status result.1 = 200 →
     ∃ username password : string,
       loginSchema_parse (req_body req) = Some (username, password) ∧
       getUserByUsername username (store result.2)
       = Some (login_user username password (store w)) ∧
       (∀ old : User, getUserByUsername username (store w) = Some old →
          users (store result.2) = users (store w))))
    [ Routes.post_login; Routes.post_login_legacy ].
Proof.
  intros Hunique.
  constructor.
  { apply (login_outcome_accounts req env w); [exact Hunique | apply routes_login_effect]. }
  constructor.
  { apply (login_outcome_accounts req env w); [exact Hunique | apply legacy_login_effect]. }
  constructor.
Qed.

Lemma login_keeps_usernames_unique_witness :
  let env := example_env (λ _, 0) (example_response 200 "OK") (Some nested_tokens) None in
  let once := (Routes.post_login (example_request None login_body) env fresh_world).2 in
  let twice := (Routes.post_login (example_request None login_body) env once).2 in
  usernames_unique (store twice) ∧ length (users (store twice)) = 1%nat.
Proof.
  intros env once twice.
  assert (Hfresh : usernames_unique (store fresh_world)) by apply NoDup_nil_2.
  pose proof (login_keeps_usernames_unique (example_request None login_body) env
                fresh_world Hfresh) as Hfirst.
  apply Forall_cons in Hfirst as [[Honce _] _]. fold once in Honce.
  pose proof (login_keeps_usernames_unique (example_request None login_body) env
                once Honce) as Hsecond.
  apply Forall_cons in Hsecond as [[Htwice _] _].
  split; [exact Htwice | reflexivity].
Defined.

(** X11: a request without an [auth_token] cookie, or with an empty one,
    is answered 401 "Not authenticated" by [me] and by every agent route,
    of [routes.ts] and of the draft alike, before the body is validated
    and before anything is sent upstream: the world is left as it was. *)
Theorem missing_token_is_rejected (schema : ZSchema) (req : Request)
    (env : Env) (w : World) :
  no_token (req_auth_token req) = true →
  Forall (λ handler : Request → Handler, handler req env w = (not_authenticated, w))
    [ Routes.get_me; Routes.get_agents; Routes.post_agents schema;
      Routes.patch_agent schema; Routes.delete_agent;
      Draft.get_agents_draft; Draft.post_agents_draft schema; Draft.put_agent schema ].
Proof.
  intros Hno.
  repeat (constructor;
          [unfold Routes.get_me, Routes.get_agents, Routes.post_agents,
             Routes.patch_agent, Routes.delete_agent, Draft.get_agents_draft,
             Draft.post_agents_draft, Draft.put_agent, handle;
           rewrite Hno; reflexivity |]).
  constructor.
Qed.

Lemma missing_token_is_rejected_witness :
  res_status
    (Routes.post_agents insertAgentSchema_v0 (example_request (Some EmptyString) VNull)
       (example_env (λ _, 0) NetworkError None None) fresh_world).1 = 401.
Proof.
  pose proof (missing_token_is_rejected insertAgentSchema_v0
                (example_request (Some EmptyString) VNull)
                (example_env (λ _, 0) NetworkError None None) fresh_world eq_refl) as H.
  apply Forall_cons in H as [_ H]. apply Forall_cons in H as [_ H].
  apply Forall_cons in H as [H _]. rewrite H. reflexivity.
Defined.

(** What a schema keeps of a body that passes: the properties the schema
    names, as they were given, and nothing else. *)
Lemma zobject_parse_lookup (schema : ZSchema) (partial : bool)
    (o parsed : jsobj) (k : string) :
  zobject_parse schema partial (VObj o) = Some parsed →
  parsed !! k = if decide (k ∈ schema.*1) then o !! k else None.
Proof.
  unfold zobject_parse. destruct (forallb _ schema); [| discriminate].
  intros H. injection H as <-. rewrite map_lookup_filter.
  destruct (o !! k) as [v |]; simpl.
  - destruct (decide (k ∈ schema.*1)).
    + rewrite option_guard_True by assumption. reflexivity.
    + rewrite option_guard_False by assumption. reflexivity.
  - destruct (decide (k ∈ schema.*1)); reflexivity.
Qed.

Lemma zobject_parse_field (schema : ZSchema) (partial : bool)
    (o parsed : jsobj) (k : string) :
  zobject_parse schema partial (VObj o) = Some parsed →
  k ∈ schema.*1 → field parsed k = field o k.
Proof.
  intros Hparse Hk. unfold field.
  rewrite (zobject_parse_lookup _ _ _ _ k Hparse).
  rewrite decide_True by exact Hk. reflexivity.
Qed.

(** X12: the login schema accepts exactly the objects whose [username]
    and [password] are non-empty strings, and hands these two on; arrays,
    [null], other values, and objects where either is missing, empty or
    not a string are rejected. *)
Theorem loginSchema_accepts_exactly (body : JSVal) (username password : string) :
  loginSchema_parse body = Some (username, password) ↔
  ∃ o : jsobj,
    body = VObj o ∧
    o !! "username" = Some (VStr username) ∧ username ≠ EmptyString ∧
    o !! "password" = Some (VStr password) ∧ password ≠ EmptyString.
Proof.
  unfold loginSchema_parse. split.
  - destruct (zobject_parse loginSchema false body) as [parsed |] eqn:Hparse;
      [| discriminate].
    destruct body as [| | | | | | | o]; try discriminate.
    pose proof (zobject_parse_lookup _ _ _ _ "username" Hparse) as Hu.
    pose proof (zobject_parse_lookup _ _ _ _ "password" Hparse) as Hp.
    simpl in Hu, Hp. unfold field. rewrite Hu, Hp.
    unfold zobject_parse in Hparse. simpl in Hparse. unfold field in Hparse.
    destruct (o !! "username") as [[| | | | u | | |] |] eqn:Hou; simpl in *;
      try discriminate.
    destruct (o !! "password") as [[| | | | p | | |] |] eqn:Hop; simpl in *;
      try (destruct (String.eqb u EmptyString); simpl in Hparse; discriminate).
    destruct (String.eqb u EmptyString) eqn:Hue; [discriminate |].
    destruct (String.eqb p EmptyString) eqn:Hpe; [discriminate |].
    apply String.eqb_neq in Hue, Hpe.
    intros H. injection H as <- <-. exists o. auto.
  - intros (o & -> & Hu & Hune & Hp & Hpne).
    assert (Hparse : zobject_parse loginSchema false (VObj o)
                     = Some (filter (λ kv, kv.1 ∈ loginSchema.*1) o)).
    { unfold zobject_parse. simpl. unfold field. rewrite Hu, Hp. simpl.
      destruct (String.eqb_spec username EmptyString); [contradiction |].
      destruct (String.eqb_spec password EmptyString); [contradiction |].
      reflexivity. }
    rewrite Hparse.
    rewrite (zobject_parse_field _ _ _ _ "username" Hparse)
      by (apply list_elem_of_here).
    rewrite (zobject_parse_field _ _ _ _ "password" Hparse)
      by (apply list_elem_of_further, list_elem_of_here).
    unfold field. rewrite Hu, Hp. reflexivity.
Qed.

(** X13: a login whose body fails the schema is answered 400
    "Validation error" by each of the three logins, with nothing sent
    upstream and the world left as it was. *)
Theorem malformed_login_is_rejected (req : Request) (env : Env) (w : World) :
  loginSchema_parse (req_body req) = None →
  Forall (λ login : Request → Handler, login req env w = (validation_error, w))
    [ Routes.post_login; Routes.post_login_legacy; Draft.post_login_draft ].
Proof.
  intros Hbody.
  repeat (constructor;
          [unfold Routes.post_login, Routes.post_login_legacy, Draft.post_login_draft,
             handle, bind at 1;
           rewrite Hbody; reflexivity |]).
  constructor.
Qed.

Lemma malformed_login_is_rejected_witness :
  let body := VObj (obj [ ("username", VStr "alice"); ("password", VStr EmptyString) ]) in
  Routes.post_login (example_request None body)
    (example_env (λ _, 0) (example_response 200 "OK") (Some nested_tokens) None)
    fresh_world
  = (validation_error, fresh_world).
Proof.
  intros body.
  pose proof (malformed_login_is_rejected (example_request None body)
                (example_env (λ _, 0) (example_response 200 "OK") (Some nested_tokens) None)
                fresh_world eq_refl) as H.
  apply Forall_cons in H as [H _]. exact H.
Defined.

(** X14: with a token, an agent body that fails the schema is answered
    400 "Validation error" by the create routes, and a partial body that
    fails it by the update routes, of [routes.ts] and of the draft alike;
    nothing is sent upstream and the world is left as it was. *)
Theorem invalid_agent_body_is_rejected (schema : ZSchema) (req : Request)
    (env : Env) (w : World) :
  no_token (req_auth_token req) = false →
  (zobject_parse schema false (req_body req) = None →
   Routes.post_agents schema req env w = (validation_error, w) ∧
   Draft.post_agents_draft schema req env w = (validation_error, w)) ∧
  (zobject_parse schema true (req_body req) = None →
   Routes.patch_agent schema req env w = (validation_error, w) ∧
   Draft.put_agent schema req env w = (validation_error, w)).
Proof.
  intros Htok. split; intros Hbody; split.
  - unfold Routes.post_agents, handle. rewrite Htok. unfold bind at 1.
    rewrite Hbody. reflexivity.
  - unfold Draft.post_agents_draft, handle. rewrite Htok. unfold bind at 1.
    rewrite Hbody. reflexivity.
  - unfold Routes.patch_agent, handle. rewrite Htok. unfold bind at 1, ask at 1.
    unfold bind at 1. rewrite Hbody. reflexivity.
  - unfold Draft.put_agent, handle. rewrite Htok. unfold bind at 1, ask at 1.
    unfold bind at 1. rewrite Hbody. reflexivity.
Qed.

Lemma invalid_agent_body_is_rejected_witness :
  let missing := VObj (obj [ ("name", VStr "Helper") ]) in
  let env := example_env (λ _, 0) (example_response 200 "OK") None (Some 1) in
  Routes.post_agents insertAgentSchema_v0 (example_request (Some "token") missing)
    env fresh_world = (validation_error, fresh_world) ∧
  Routes.patch_agent insertAgentSchema_v0
    (example_request (Some "token") (VObj (obj [ ("name", VNum 5) ])))
    env fresh_world = (validation_error, fresh_world).
Proof.
  intros missing env. split.
  - destruct (invalid_agent_body_is_rejected insertAgentSchema_v0
                (example_request (Some "token") missing) env fresh_world eq_refl)
      as [Hcreate _].
    destruct (Hcreate eq_refl) as [H _]. exact H.
  - destruct (invalid_agent_body_is_rejected insertAgentSchema_v0
                (example_request (Some "token") (VObj (obj [ ("name", VNum 5) ])))
                env fresh_world eq_refl)
      as [_ Hupdate].
    destruct (Hupdate eq_refl) as [H _]. exact H.
Defined.

Lemma not_ok_status (r : Response) (code : Z) :
  resp_ok r = false → 200 ≤ code ≤ 299 → resp_status r ≠ code.
Proof.
  unfold resp_ok. intros Hok Hcode Heq. rewrite Heq in Hok.
  apply andb_false_iff in Hok as [H | H]; apply Z.leb_gt in H; lia.
Qed.

Ltac unchanged_branch := left; simpl; split; [first [discriminate | idtac] | reflexivity].

Lemma post_agents_effect (schema : ZSchema) (req : Request) (env : Env) (w : World) :
  create_outcome schema req env w
    (Routes.post_agents schema req env w).1 (Routes.post_agents schema req env w).2.
Proof.
  destruct (Routes.post_agents schema req env w) as [res w'] eqn:H. simpl.
  unfold Routes.post_agents, handle in H.
  destruct (no_token (req_auth_token req)) eqn:Hno;
    [injection H as <- <-; unchanged_branch |].
  apply no_token_false in Hno as (token & Htok & _). rewrite Htok in H. simpl in H.
  unfold bind at 1 in H.
  destruct (zobject_parse schema false (req_body req)) as [agentData |] eqn:Hbody;
    [| injection H as <- <-; unchanged_branch].
  unfold or_throw at 1, ret at 1, bind at 1, fetch in H.
  destruct (upstream env (Routes.create_request token agentData)) as [| r];
    [injection H as <- <-; unchanged_branch |].
  destruct (resp_ok r) eqn:Hok; simpl in H.
  2: { injection H as <- <-. left. simpl. split; [| reflexivity].
       apply not_ok_status; [exact Hok | lia]. }
  unfold bind at 1, response_json, bind at 1, ask at 1 in H.
  destruct (JSON_parse env (resp_text r)) as [apiResult |];
    [| injection H as <- <-; unchanged_branch].
  unfold or_throw at 1, ret at 1, bind at 1 in H.
  destruct (get_prop apiResult "success") as [success |];
    [| injection H as <- <-; unchanged_branch].
  unfold or_throw at 1, ret at 1 in H.
  destruct (truthy success); simpl in H.
  2: { unfold bind at 1 in H.
       destruct (get_prop apiResult "error"); injection H as <- <-; unchanged_branch. }
  unfold bind at 1 in H.
  destruct (get_prop apiResult "data") as [data |];
    [| injection H as <- <-; unchanged_branch].
  unfold or_throw at 1, ret at 1, bind at 1 in H.
  destruct (get_prop data "id") as [id |];
    [| injection H as <- <-; unchanged_branch].
  unfold or_throw at 1, ret at 1, bind at 1 in H.
  destruct (to_string id) as [externalId |] eqn:Hid;
    [| injection H as <- <-; unchanged_branch].
  unfold or_throw at 1, ret at 1, bind at 1, storage_createAgent, bind at 1,
    date_now, storage_run in H.
  simpl in H. injection H as <- <-. right.
  exists token, agentData, data, id, externalId. repeat split; assumption.
Qed.



Lemma patch_agent_effect (schema : ZSchema) (req : Request) (env : Env) (w : World) :
  update_outcome schema req env w
    (Routes.patch_agent schema req env w).1 (Routes.patch_agent schema req env w).2.
Proof.
  destruct (Routes.patch_agent schema req env w) as [res w'] eqn:H. simpl.
  unfold Routes.patch_agent, handle in H.
  destruct (no_token (req_auth_token req)) eqn:Hno;
    [injection H as <- <-; unchanged_branch |].
  apply no_token_false in Hno as (token & Htok & _). rewrite Htok in H. simpl in H.
  unfold bind at 1, ask at 1, bind at 1 in H.
  destruct (zobject_parse schema true (req_body req)) as [updateData |] eqn:Hbody;
    [| injection H as <- <-; unchanged_branch].
  unfold or_throw at 1, ret at 1, bind at 1, storage_getAgent, storage_read in H.
  destruct (parseInt env (req_params_id req)) as [id |] eqn:Hid;
    [| injection H as <- <-; unchanged_branch].
  destruct (getAgent id (store w)) as [existingAgent |] eqn:Hget;
    [| injection H as <- <-; unchanged_branch].
  unfold bind at 1, fetch in H.
  destruct (upstream env (Routes.update_request token id existingAgent updateData))
    as [| r]; [injection H as <- <-; unchanged_branch |].
  destruct (resp_ok r) eqn:Hok; simpl in H.
  2: { injection H as <- <-. left. simpl. split; [| reflexivity].
       apply not_ok_status; [exact Hok | lia]. }
  destruct (JSON_parse env (resp_text r)) as [apiResult |];
    [| injection H as <- <-; unchanged_branch].
  unfold bind at 1 in H.
  destruct (get_prop apiResult "success") as [success |] eqn:Hsuccess;
    [| injection H as <- <-; unchanged_branch].
  unfold or_throw at 1, ret at 1 in H.
  destruct (truthy success); simpl in H.
  2: { unfold bind at 1 in H.
       destruct (get_prop apiResult "error"); injection H as <- <-; unchanged_branch. }
  unfold bind at 1, storage_updateAgent, storage_run in H.
  cbn beta iota delta [store ticks outbound] in H.
  assert (Hupd : updateAgent id updateData (store w)
                 = (Some (spread existingAgent updateData),
                    (updateAgent id updateData (store w)).2)).
  { unfold updateAgent. unfold getAgent in Hget. rewrite Hget. reflexivity. }
  rewrite Hupd in H. unfold bind at 1 in H.
  destruct (get_prop apiResult "data") as [data |] eqn:Hdata.
  - unfold or_throw, ret in H. simpl in H. injection H as <- <-. right.
    exists token, id, existingAgent, updateData, data.
    repeat split; assumption.
  - (* [apiResult.data] cannot throw once [apiResult.success] has been read *)
    exfalso. destruct apiResult; simpl in *; discriminate.
Qed.

(** X16: [PATCH /api/agents/:id] of [routes.ts] never adds or removes a
    record and never touches accounts, sessions or the id counter; it
    changes the store only when it answers 200.  With a 200 the record
    under the id has been replaced by the stored record with the
    validated fields spread over it, the records under other ids are as
    before, and the one call that went upstream was built from the stored
    record and the validated fields. *)
Theorem patch_changes_store_only_on_200 (schema : ZSchema) (req : Request)
    (env : Env) (w : World) :
  let result := Routes.patch_agent schema req env w in
  users (store result.2) = users (store w) ∧
  sessions (store result.2) = sessions (store w) ∧
  map_keys (agents (store result.2)) = map_keys (agents (store w)) ∧
  currentAgentId (store result.2) = currentAgentId (store w) ∧
  (res_status result.1 ≠ 200 → store result.2 = store w) ∧
  (res_status result.1 = 200 →
   ∃ (token : string) (id : Z) (existingAgent updateData : jsobj),
     req_auth_token req = Some token ∧
     parseInt env (req_params_id req) = Some id ∧
     getAgent id (store w) = Some existingAgent ∧
     zobject_parse schema true (req_body req) = Some updateData ∧
     getAgent id (store result.2) = Some (spread existingAgent updateData) ∧
     (∀ j : Z, j ≠ id → getAgent j (store result.2) = getAgent j (store w)) ∧
     outbound result.2
     = outbound w ++ [Routes.update_request token id existingAgent updateData]).
Proof.
  intros result. subst result.
  destruct (patch_agent_effect schema req env w)
    as [[Hstatus Hstore] |
        (token & id & existing & upd & data & Htok & Hid & Hget & Hbody & Hres & Hstore & Hout)].
  - rewrite Hstore. do 4 (split; [reflexivity |]).
    split; [reflexivity | contradiction].
  - rewrite Hstore.
    assert (Hupd : (updateAgent id upd (store w)).2
                   = with_agents (store w)
                       (map_set id (spread existing upd) (agents (store w)))
                       (currentAgentId (store w))).
    { unfold updateAgent. unfold getAgent in Hget. rewrite Hget. reflexivity. }
    split; [rewrite Hupd; reflexivity |]. split; [rewrite Hupd; reflexivity |].
    split; [apply updateAgent_keys |]. split; [apply updateAgent_counter |].
    split; [intros Hne; rewrite Hres in Hne; contradiction |].
    intros _. exists token, id, existing, upd.
    do 4 (split; [assumption |]).
    split; [rewrite Hupd; unfold getAgent; simpl; apply map_get_set_eq |].
    split; [| exact Hout].
    intros j Hne. rewrite Hupd. unfold getAgent. simpl. apply map_get_set_ne. exact Hne.
Qed.

(** A blank field in an update is replaced by the stored value in what
    goes upstream, but is stored locally as given. *)
Example blank_name_goes_upstream_as_stored :
  let env := example_env (λ _, 0) (example_response 200 "OK")
               (Some (VObj (obj [ ("success", VBool true) ]))) (Some 4) in
  let w := {| store := (createAgent (obj [ ("name", VStr "Old") ]) 0
                          (constructor (λ _, 0))).2;
              ticks := 0; outbound := [] |} in
  let result :=
    Routes.patch_agent [ ("name", ZString) ]
      (example_request (Some "token") (VObj (obj [ ("name", VStr EmptyString) ])))
      env w in
  res_status result.1 = 200 ∧
  (λ r, fr_body r !! 1%nat) <$> outbound result.2 = [ Some ("prompt", VStr "Old") ] ∧
  (λ a, field a "name") <$> getAgent 4 (store result.2) = Some (VStr EmptyString).
Proof. vm_compute. repeat split. Qed.

Lemma delete_agent_spec (req : Request) (env : Env) (w : World) :
  no_token (req_auth_token req) = false →
  Routes.delete_agent req env w
  = (json 200 (VObj (obj [ ("success", VBool true);
                           ("message", VStr "Agent deleted successfully") ])),
     {| store := match parseInt env (req_params_id req) with
                 | Some id => deleteAgent id (store w)
                 | None => store w
                 end;
        ticks := ticks w; outbound := outbound w |}).
Proof.
  intros Htok. unfold Routes.delete_agent. run_handler. rewrite Htok. reflexivity.
Qed.

(** X17: with a token, [DELETE /api/agents/:id] always answers 200
    "Agent deleted successfully", whether or not the id names a record and
    even when it is not a number; it sends nothing upstream, removes the
    record under the id if there is one, leaves the world as it was
    otherwise, and a repeat of the request gives the same answer and
    changes nothing further. *)
Theorem delete_always_succeeds (req : Request) (env : Env) (w : World) :
  no_token (req_auth_token req) = false →
  let result := Routes.delete_agent req env w in
  result.1 = json 200 (VObj (obj [ ("success", VBool true);
                                   ("message", VStr "Agent deleted successfully") ])) ∧
  outbound result.2 = outbound w ∧
  (∀ id : Z, parseInt env (req_params_id req) = Some id →
     getAgent id (store result.2) = None ∧
     ∀ j : Z, j ≠ id → getAgent j (store result.2) = getAgent j (store w)) ∧
  (absent_id (parseInt env (req_params_id req)) (store w) → result.2 = w) ∧
  Routes.delete_agent req env result.2 = result.
Proof.
  intros Htok result. subst result.
  rewrite (delete_agent_spec req env w Htok).
  rewrite (delete_agent_spec req env _ Htok). simpl.
  split; [reflexivity |]. split; [reflexivity |].
  split.
  { intros id ->. split; [unfold getAgent; simpl; apply map_get_delete_eq |].
    intros j Hne. unfold getAgent. simpl. apply map_get_delete_ne. exact Hne. }
  split.
  - destruct (parseInt env (req_params_id req)) as [id |]; simpl; intros Habsent.
    + unfold deleteAgent. unfold getAgent in Habsent.
      rewrite map_delete_absent by (apply map_get_None; exact Habsent).
      rewrite with_agents_same. destruct w; reflexivity.
    + destruct w; reflexivity.
  - destruct (parseInt env (req_params_id req)) as [id |]; [| reflexivity].
    unfold deleteAgent. simpl. rewrite map_delete_idem. reflexivity.
Qed.

Lemma delete_always_succeeds_witness :
  let result :=
    Routes.delete_agent (example_request (Some "token") VUndefined)
      (example_env (λ _, 0) NetworkError None (Some 2)) fresh_world in
  res_status result.1 = 200 ∧ map_keys (agents (store result.2)) = [1; 3].
Proof.
  destruct (delete_always_succeeds (example_request (Some "token") VUndefined)
              (example_env (λ _, 0) NetworkError None (Some 2)) fresh_world eq_refl)
    as (Hres & _).
  split; [rewrite Hres; reflexivity | reflexivity].
Defined.

(** X18: the create and update routes of the draft work on the local
    store only: whatever the request, nothing goes upstream.  With a token
    and a body that passes, the create answers 201 with the record
    [createAgent] makes of the validated fields, and the update of a
    stored id answers 200 with the stored record with the validated
    fields spread over it. *)
Theorem draft_writes_are_local (schema : ZSchema) (req : Request)
    (env : Env) (w : World) :
  outbound (Draft.post_agents_draft schema req env w).2 = outbound w ∧
  outbound (Draft.put_agent schema req env w).2 = outbound w ∧
  (∀ agentData : jsobj,
     no_token (req_auth_token req) = false →
     zobject_parse schema false (req_body req) = Some agentData →
     Draft.post_agents_draft schema req env w
     = (json 201 (VObj (createAgent agentData (clock env (ticks w)) (store w)).1),
        {| store := (createAgent agentData (clock env (ticks w)) (store w)).2;
           ticks := S (ticks w); outbound := outbound w |})) ∧
  (∀ (id : Z) (existingAgent updateData : jsobj),
     no_token (req_auth_token req) = false →
     parseInt env (req_params_id req) = Some id →
     zobject_parse schema true (req_body req) = Some updateData →
     getAgent id (store w) = Some existingAgent →
     Draft.put_agent schema req env w
     = (json 200 (VObj (spread existingAgent updateData)),
        {| store := (updateAgent id updateData (store w)).2;
           ticks := ticks w; outbound := outbound w |})).
Proof.
  split; [| split; [| split]].
  - unfold Draft.post_agents_draft. run_handler.
    destruct (no_token (req_auth_token req)); [reflexivity |].
    destruct (zobject_parse schema false (req_body req)); reflexivity.
  - unfold Draft.put_agent. run_handler.
    destruct (no_token (req_auth_token req)); [reflexivity |].
    destruct (zobject_parse schema true (req_body req)) as [upd |]; simpl;
      [| reflexivity].
    destruct (parseInt env (req_params_id req)) as [id |]; simpl; [| reflexivity].
    destruct (updateAgent id upd (store w)) as [[a |] st]; reflexivity.
  - intros agentData Htok Hbody. unfold Draft.post_agents_draft. run_handler.
    rewrite Htok, Hbody. reflexivity.
  - intros id existing upd Htok Hid Hbody Hget. unfold Draft.put_agent. run_handler.
    rewrite Htok, Hbody. simpl. rewrite Hid.
    unfold updateAgent. unfold getAgent in Hget. rewrite Hget. reflexivity.
Qed.

Example draft_create_is_local :
  let result :=
    Draft.post_agents_draft insertAgentSchema_v0
      (example_request (Some "demo_token_1") agent_body)
      (example_env (λ _, 0) NetworkError None None) fresh_world in
  res_status result.1 = 201 ∧ outbound result.2 = [] ∧
  map_keys (agents (store result.2)) = [1; 2; 3; 4].
Proof. vm_compute. repeat split. Qed.

(** X19: [GET /api/agents] of [routes.ts] is a pure proxy: its answer
    does not depend on the local store (it is the same in any two worlds)
    and it leaves the store as it was.  With a token, a 2xx upstream
    response is answered 200 with the parsed upstream body as it is, and
    500 "Error connecting to agent API" when the body does not parse. *)
Theorem list_is_a_pure_proxy (req : Request) (env : Env) (w1 w2 : World) :
  (Routes.get_agents req env w1).1 = (Routes.get_agents req env w2).1 ∧
  store (Routes.get_agents req env w1).2 = store w1 ∧
  (∀ (token : string) (r : Response),
     req_auth_token req = Some token → token ≠ EmptyString →
     upstream env (Routes.list_request token) = Responded r →
     resp_ok r = true →
     (Routes.get_agents req env w1).1
     = match JSON_parse env (resp_text r) with
       | Some agents => json 200 agents
       | None => json 500 (message "Error connecting to agent API")
       end).
Proof.
  split; [| split].
  - unfold Routes.get_agents. run_handler.
    destruct (no_token (req_auth_token req)); [reflexivity |].
    destruct (upstream env _) as [| r]; [reflexivity |].
    destruct (resp_ok r); simpl; [| reflexivity].
    destruct (JSON_parse env (resp_text r)); reflexivity.
  - unfold Routes.get_agents. run_handler.
    destruct (no_token (req_auth_token req)); [reflexivity |].
    destruct (upstream env _) as [| r]; [reflexivity |].
    destruct (resp_ok r); simpl; [| reflexivity].
    destruct (JSON_parse env (resp_text r)); reflexivity.
  - intros token r Htok Hne Hup Hok.
    assert (Hno : no_token (req_auth_token req) = false).
    { apply no_token_false. eauto. }
    unfold Routes.get_agents. run_handler. rewrite Hno, Htok. simpl.
    rewrite Hup, Hok. simpl.
    destruct (JSON_parse env (resp_text r)); reflexivity.
Qed.



Lemma map_set_same {V} (k : Z) (v : V) (m : list (Z * V)) :
  map_get k m = Some v → map_set k v m = m.
Proof.
  induction m as [| [k' v'] m IH]; simpl; [discriminate |].
  destruct (decide (k = k')) as [-> | Hne]; intros H.
  - injection H as ->. reflexivity.
  - rewrite IH by exact H. reflexivity.
Qed.

(** X21: on a stored record [updateAgent] is a shallow merge: it returns
    the record in which every property the update names has the update's
    value and every other property the stored one, files it under the
    same id, and leaves the records under other ids, the order of the
    list and the counter as they were; an empty update returns the stored
    record and leaves the store as it was. *)
Theorem updateAgent_merges (st : MemStorage) (id : Z) (existingAgent updateData : jsobj) :
  getAgent id st = Some existingAgent →
  let result := updateAgent id updateData st in
  result.1 = Some (spread existingAgent updateData) ∧
  (∀ k : string,
     field (spread existingAgent updateData) k
     = match updateData !! k with
       | Some v => v
       | None => field existingAgent k
       end) ∧
  getAgent id result.2 = Some (spread existingAgent updateData) ∧
  (∀ j : Z, j ≠ id → getAgent j result.2 = getAgent j st) ∧
  map_keys (agents result.2) = map_keys (agents st) ∧
  currentAgentId result.2 = currentAgentId st ∧
  updateAgent id ∅ st = (Some existingAgent, st).
Proof.
  intros Hget result. subst result. unfold getAgent in Hget.
  unfold updateAgent. rewrite Hget. simpl.
  split; [reflexivity |].
  split.
  { intros k. destruct (updateData !! k) as [v |] eqn:Hk.
    - apply field_spread_l. exact Hk.
    - apply field_spread_r. exact Hk. }
  split; [unfold getAgent; simpl; apply map_get_set_eq |].
  split; [intros j Hne; unfold getAgent; simpl; apply map_get_set_ne; exact Hne |].
  split; [apply map_keys_set_present; eapply map_get_Some_key; exact Hget |].
  split; [reflexivity |].
  unfold spread. rewrite (left_id ∅ (∪) existingAgent).
  rewrite map_set_same by exact Hget. rewrite with_agents_same. reflexivity.
Qed.

Lemma updateAgent_merges_witness :
  (updateAgent 2 ∅ (constructor (λ _, 0))).2 = constructor (λ _, 0).
Proof.
  destruct (updateAgent_merges (constructor (λ _, 0)) 2
              (default ∅ (getAgent 2 (constructor (λ _, 0)))) ∅ eq_refl)
    as (_ & _ & _ & _ & _ & _ & H).
  rewrite H. reflexivity.
Defined.

Lemma zobject_parse_strips (schema : ZSchema) (partial : bool)
    (body : JSVal) (parsed : jsobj) (k : string) :
  zobject_parse schema partial body = Some parsed →
  k ∉ schema.*1 → parsed !! k = None.
Proof.
  intros Hparse Hk. destruct body as [| | | | | | | o]; try discriminate.
  rewrite (zobject_parse_lookup _ _ _ _ k Hparse).
  rewrite decide_False by exact Hk. reflexivity.
Qed.

Lemma createAgent_ids_match_keys (insertAgent : jsobj) (now : Z) (st : MemStorage) :
  ids_match_keys st → ids_match_keys (createAgent insertAgent now st).2.
Proof. apply (apply_op_ids_match_keys (OpCreateAgent insertAgent now) st I). Qed.

Lemma updateAgent_ids_match_keys (id : Z) (updateData : jsobj) (st : MemStorage) :
  updateData !! "id" = None →
  ids_match_keys st → ids_match_keys (updateAgent id updateData st).2.
Proof. intros Hid. apply (apply_op_ids_match_keys (OpUpdateAgent id updateData) st Hid). Qed.

Lemma deleteAgent_ids_match_keys (id : Z) (st : MemStorage) :
  ids_match_keys st → ids_match_keys (deleteAgent id st).
Proof. apply (apply_op_ids_match_keys (OpDeleteAgent id) st I). Qed.

(** X22: through the agent routes the [id] property of a record cannot be
    changed: when the agent schema does not list [id] (validation strips
    what the schema does not list) and every stored record names its own
    key in [id], the same is true after any create, update or delete
    request, in [routes.ts] and in the draft. *)
Theorem routes_keep_ids_matching (schema : ZSchema) (req : Request)
    (env : Env) (w : World) :
  "id" ∉ schema.*1 →
  ids_match_keys (store w) →
  Forall (λ handler : Request → Handler, ids_match_keys (store (handler req env w).2))
    [ Routes.post_agents schema; Routes.patch_agent schema; Routes.delete_agent;
      Draft.post_agents_draft schema; Draft.put_agent schema ].
Proof.
  intros Hschema Hinv.
  constructor.
  { destruct (post_agents_effect schema req env w)
      as [[_ Hstore] | (token & agentData & data & id & ext & _ & _ & _ & _ & Hstore & _)];
      rewrite Hstore; [exact Hinv |].
    apply createAgent_ids_match_keys. exact Hinv. }
  constructor.
  { destruct (patch_agent_effect schema req env w)
      as [[_ Hstore] | (token & id & existing & upd & data & _ & _ & _ & Hbody & _ & Hstore & _)];
      rewrite Hstore; [exact Hinv |].
    apply updateAgent_ids_match_keys; [| exact Hinv].
    eapply zobject_parse_strips; [exact Hbody | exact Hschema]. }
  constructor.
  { destruct (no_token (req_auth_token req)) eqn:Htok.
    - unfold Routes.delete_agent, handle. rewrite Htok. exact Hinv.
    - rewrite (delete_agent_spec req env w Htok). simpl.
      destruct (parseInt env (req_params_id req));
        [apply deleteAgent_ids_match_keys |]; exact Hinv. }
  constructor.
  { unfold Draft.post_agents_draft. run_handler.
    destruct (no_token (req_auth_token req)); [exact Hinv |].
    destruct (zobject_parse schema false (req_body req)) as [agentData |]; simpl;
      [| exact Hinv].
    apply (createAgent_ids_match_keys agentData (clock env (ticks w)) (store w) Hinv). }
  constructor; [| constructor].
  unfold Draft.put_agent. run_handler.
  destruct (no_token (req_auth_token req)); [exact Hinv |].
  destruct (zobject_parse schema true (req_body req)) as [upd |] eqn:Hbody; simpl;
    [| exact Hinv].
  destruct (parseInt env (req_params_id req)) as [id |]; simpl.
  - pose proof (updateAgent_ids_match_keys id upd (store w)
                  (zobject_parse_strips _ _ _ _ "id" Hbody Hschema) Hinv) as Hupd.
    destruct (updateAgent id upd (store w)) as [[a |] st]; exact Hupd.
  - exact Hinv.
Qed.

Lemma routes_keep_ids_matching_witness :
  ids_match_keys
    (store (Draft.put_agent insertAgentSchema_v0
              (example_request (Some "token")
                 (VObj (obj [ ("id", VNum 99); ("description", VStr "new") ])))
              (example_env (λ _, 0) NetworkError None (Some 1)) fresh_world).2).
Proof.
  assert (Hschema : "id" ∉ insertAgentSchema_v0.*1).
  { intros H. repeat (apply elem_of_cons in H as [H | H]; [discriminate |]).
    apply elem_of_nil in H. exact H. }
  pose proof (routes_keep_ids_matching insertAgentSchema_v0
                (example_request (Some "token")
                   (VObj (obj [ ("id", VNum 99); ("description", VStr "new") ])))
                (example_env (λ _, 0) NetworkError None (Some 1)) fresh_world
                Hschema (constructor_ids_match_keys (λ _, 0))) as H.
  do 4 (apply Forall_cons in H as [_ H]). apply Forall_cons in H as [H _]. exact H.
Defined.

(** Outside its demo branch the login of the draft behaves like the
    others, with the token read from the flat shape only. *)
Lemma draft_login_effect (req : Request) (env : Env) (w : World) :
  loginSchema_parse (req_body req) ≠ Some ("testuser", "password123") →
  login_outcome req env w
    (Draft.post_login_draft req env w).1 (Draft.post_login_draft req env w).2.
Proof.
  intros Hdemo.
  destruct (Draft.post_login_draft req env w) as [res w'] eqn:H. simpl.
  unfold Draft.post_login_draft, handle, bind at 1 in H.
  destruct (loginSchema_parse (req_body req)) as [[username password] |] eqn:Hbody;
    [| injection H as <- <-; failed_branch].
  unfold or_throw at 1, ret at 1 in H.
  destruct (String.eqb username "testuser" && String.eqb password "password123")
    eqn:Hpair.
  { exfalso. apply andb_true_iff in Hpair as [Hu Hp].
    apply String.eqb_eq in Hu, Hp. subst. apply Hdemo. reflexivity. }
  unfold bind at 1, ask at 1, bind at 1, fetch in H.
  destruct (upstream env (Routes.login_request env username password)) as [| r];
    [injection H as <- <-; failed_branch |].
  destruct (resp_ok r); simpl in H; [| injection H as <- <-; failed_branch].
  destruct (JSON_parse env (resp_text r)) as [authData |];
    [| injection H as <- <-; failed_branch].
  unfold bind at 1 in H.
  destruct (get_prop authData "access_token") as [flat |];
    [| injection H as <- <-; failed_branch].
  unfold or_throw at 1, ret at 1 in H.
  destruct (truthy flat) eqn:Htok; simpl in H;
    [| injection H as <- <-; failed_branch].
  unfold bind at 1 in H.
  destruct (get_prop authData "refresh_token") as [rflat |];
    [| injection H as <- <-; failed_branch].
  unfold or_throw at 1, ret at 1 in H.
  rewrite establish_session_spec in H. injection H as <- <-. right.
  exists username, password, flat, rflat.
  split; [exact Hbody |]. split; [exact Htok |]. repeat split.
Qed.

(** X23: for any pair but the demo pair, the login of the draft is all
    or nothing like those of [routes.ts]: it answers 200, 400, 401 or 500;
    unless it answers 200 it leaves the store as it was and sets no
    cookie; when it answers 200 the cookie carries a truthy token and the
    session stored for the account of the submitted username holds that
    same token. *)
Theorem draft_login_is_all_or_nothing (req : Request) (env : Env) (w : World) :
  loginSchema_parse (req_body req) ≠ Some ("testuser", "password123") →
  let result := Draft.post_login_draft req env w in
  res_status result.1 ∈ [200; 400; 401; 500] ∧
  (res_status result.1 ≠ 200 →
   store result.2 = store w ∧ res_cookies result.1 = []) ∧
  (res_status result.1 = 200 →
   ∃ (username password : string) (accessToken : JSVal) (s : Session),
     loginSchema_parse (req_body req) = Some (username, password) ∧
     truthy accessToken = true ∧
     res_cookies result.1 = [ ("auth_token", accessToken, auth_cookie_options env) ] ∧
     user_username (login_user username password (store w)) = username ∧
     getSession (user_id (login_user username password (store w))) (store result.2)
     = Some s ∧
     session_accessToken s = accessToken ∧
     session_expiresAt s = plus_hours env (clock env (ticks w)) 24).
Proof.
  intros Hdemo result. subst result.
  apply login_outcome_all_or_nothing, draft_login_effect. exact Hdemo.
Qed.

Lemma draft_login_is_all_or_nothing_witness :
  let result :=
    Draft.post_login_draft (example_request None login_body)
      (example_env (λ _, 0) (example_response 200 "OK") (Some nested_tokens) None)
      fresh_world in
  res_status result.1 = 401 ∧ store result.2 = store fresh_world.
Proof.
  destruct (draft_login_is_all_or_nothing (example_request None login_body)
              (example_env (λ _, 0) (example_response 200 "OK") (Some nested_tokens) None)
              fresh_world) as (_ & Hfail & _).
  - vm_compute. discriminate.
  - split; [vm_compute; reflexivity |]. apply Hfail. vm_compute. discriminate.
Defined.

Lemma logout_spec (req : Request) (env : Env) (w : World) :
  Routes.post_logout req env w
  = (with_cleared "auth_token"
       (json 200 (VObj (obj [ ("success", VBool true);
                              ("message", VStr "Logged out successfully") ]))), w).
Proof. reflexivity. Qed.

(** X24: logging out clears the cookie in the browser and nothing else:
    after a login of [routes.ts] that set the cookie to the string [t], a
    logout leaves the world as it was, so the session stored by the login
    is still there, and a later [me] request that presents [t] again is
    answered 200 [{authenticated: true}]. *)
Theorem logout_keeps_the_session (login logout check : Request) (env : Env) (w : World)
    (t : string) (options : CookieOptions) :
  res_cookies (Routes.post_login login env w).1 = [ ("auth_token", VStr t, options) ] →
  req_auth_token check = Some t →
  let w1 := (Routes.post_login login env w).2 in
  let w2 := (Routes.post_logout logout env w1).2 in
  res_cleared (Routes.post_logout logout env w1).1 = [ "auth_token" ] ∧
  w2 = w1 ∧
  (∃ (u : Z) (s : Session),
     getSession u (store w2) = Some s ∧ session_accessToken s = VStr t) ∧
  (Routes.get_me check env w2).1
  = json 200 (VObj (obj [ ("authenticated", VBool true) ])).
Proof.
  intros Hcookie Hcheck w1 w2. subst w2 w1. rewrite logout_spec. simpl.
  split; [reflexivity |]. split; [reflexivity |].
  destruct (routes_login_effect login env w)
    as [(_ & Hnone & _) |
        (username & password & tok & rt & Hbody & Htok & _ & Hset & Hstore)].
  { rewrite Hnone in Hcookie. discriminate. }
  rewrite Hset in Hcookie. injection Hcookie as -> _.
  split.
  - destruct (logged_in_session username password (VStr t) (js_or rt VNull)
                (plus_hours env (clock env (ticks w)) 24) (clock env (S (ticks w)))
                (store w)) as (s & Hget & _ & Hacc & _).
    exists (user_id (login_user username password (store w))), s.
    rewrite Hstore. auto.
  - unfold Routes.get_me. run_handler. rewrite Hcheck. simpl.
    simpl in Htok. destruct (String.eqb t EmptyString); [discriminate | reflexivity].
Qed.

Lemma logout_keeps_the_session_witness :
  let env := example_env (λ _, 0) (example_response 200 "OK") (Some flat_tokens) None in
  let w1 := (Routes.post_login (example_request None login_body) env fresh_world).2 in
  res_status
    (Routes.get_me (example_request (Some "tok-flat") VUndefined) env
       (Routes.post_logout (example_request (Some "tok-flat") VUndefined) env w1).2).1
  = 200.
Proof.
  intros env w1.
  destruct (logout_keeps_the_session (example_request None login_body)
              (example_request (Some "tok-flat") VUndefined)
              (example_request (Some "tok-flat") VUndefined)
              env fresh_world "tok-flat" (auth_cookie_options env) eq_refl eq_refl)
    as (_ & _ & _ & Hme).
  fold w1 in Hme. rewrite Hme. reflexivity.
Defined.
